(** * Review-to-place ranking pipeline of [2v/step2_search.py]

    A shallow embedding of [SemanticSearch.search_reviews],
    [SemanticSearch.search_places], [SemanticSearch.get_place_highlights],
    [sentiment_to_weight] and [normalize_text], together with the defaults of
    [2v/config.py]; and, around them, [get_place_sentiment_stats], the search
    request of the page [2v/app.py] and the choice of the text column in
    [2v/step1_prepare.load_data].

    Modelling conventions.
    - A pandas DataFrame is a [list] of row records, in row order.
    - A float is idealised as an exact number: review-level scores are
      rationals ([Q], executable), the place-level [final_score], which goes
      through [np.log1p] and [np.sqrt], is a real ([R]).  [NaN] in a column
      is [None].  The statements below are about the formulas, the
      comparisons and the selections of the code, not about rounding.
    - A Python [str] is the string of the bytes of its UTF-8 encoding.
      [len], slices, [split] and [strip] work on its characters, and white
      space is that of Unicode.
    - A sort keeps rows with equal keys in row order, which is one of the
      orders pandas may give them.
    - The object attributes [_last_relevant_reviews] and
      [_last_query_sentiment] are the fields of an explicit [Session] state
      that every method threads; a Python exception is the [Raise] outcome
      and keeps the mutations made before it was raised.
    - The sentence-embedding model, the FAISS index, the sentiment pipeline
      and [unicodedata.normalize] are external: they are the fields of a
      [Backend] record.  Each call to them is appended to the session's
      [calls] log, which is how "the index was (not) searched" is stated.
      The index answers with signed labels, a position or the padding label
      [-1].  It refuses a request for no candidates ([k <= 0]) with an
      assertion error: [index_search] is total, and a statement that a
      direct call of [search_reviews] returns a frame assumes a positive
      [k]; [search_places] asks for [min(1500, ntotal)] candidates, which is
      positive for every index that holds a review. *)

From Stdlib Require Import List ZArith QArith Qreals Reals Lia Lra.
From Stdlib Require Import String Ascii Bool Permutation Sorted.
Import ListNotations.

Local Open Scope string_scope.
Local Open Scope list_scope.

(** ** Text helpers *)

Module Text.

(** A Python [str] is held as the bytes of its UTF-8 encoding (a lone
    surrogate as the three bytes its code point takes in that scheme).  A
    character is then one to four bytes, and [len], slices, [split] and
    [strip] count and cut characters, not bytes.  A string is empty exactly
    when it has no byte, which is how [len(s) == 0] and [not s] are
    tested. *)

(** The number of bytes of the character that the byte [b] starts.  A byte
    that starts no character in UTF-8, which the encoding of a [str] does
    not have in that place, counts as a character of its own. *)
Definition width (b : ascii) : nat :=
  let n := nat_of_ascii b in
  if (n <? 192)%nat then 1
  else if (n <? 224)%nat then 2
  else if (n <? 240)%nat then 3
  else if (n <? 248)%nat then 4
  else 1.

(** The characters of a byte sequence, each as its own string; [cur] holds
    the bytes of the character being read, last byte first, and [need] the
    number of bytes it still lacks. *)
Fixpoint chars_from (need : nat) (cur : list ascii) (l : list ascii)
  : list string :=
  match l with
  | [] =>
      match cur with
      | [] => []
      | _ => [string_of_list_ascii (rev cur)]
      end
  | b :: t =>
      match need with
      | S k => chars_from k (b :: cur) t
      | O =>
          match cur with
          | [] => chars_from (width b - 1) [b] t
          | _ => string_of_list_ascii (rev cur)
                 :: chars_from (width b - 1) [b] t
          end
      end
  end.

Definition chars (s : string) : list string :=
  chars_from 0 [] (list_ascii_of_string s).

(** The string made of the given characters. *)
Fixpoint cat (cs : list string) : string :=
  match cs with
  | [] => EmptyString
  | c :: t => (c ++ cat t)%string
  end.

(** [len(s)]. *)
Definition length (s : string) : nat := List.length (chars s).

(** The bytes of a character as numbers. *)
Definition code (c : string) : list nat :=
  map nat_of_ascii (list_ascii_of_string c).

Definition between (lo hi n : nat) : bool := ((lo <=? n) && (n <=? hi))%nat.

(** [str.isspace] of one character, which is the white space of [split]
    and [strip]: U+0009-000D, U+001C-0020, U+0085, U+00A0, U+1680,
    U+2000-200A, U+2028, U+2029, U+202F, U+205F and U+3000. *)
Definition is_space (c : string) : bool :=
  match code c with
  | [a] => between 9 13 a || between 28 32 a
  | [a; b] => ((a =? 194) && ((b =? 133) || (b =? 160)))%nat
  | [a; b; d] =>
      ((a =? 225) && (b =? 154) && (d =? 128)
       || (a =? 226) && (b =? 128)
          && (between 128 138 d || (d =? 168) || (d =? 169) || (d =? 175))
       || (a =? 226) && (b =? 129) && (d =? 159)
       || (a =? 227) && (b =? 128) && (d =? 128))%nat
  | _ => false
  end.

(** A lone surrogate, U+D800-DFFF. *)
Definition is_surrogate (c : string) : bool :=
  match code c with
  | [a; b; _] => ((a =? 237)%nat && between 160 191 b)
  | _ => false
  end.

(** [s.encode("utf-8", "ignore").decode("utf-8", "ignore")]: the lone
    surrogates, which cannot be encoded, are dropped. *)
Definition encode_ignore (s : string) : string :=
  cat (filter (fun c => negb (is_surrogate c)) (chars s)).

(** [str.lower] on the ASCII range. *)
Definition lower_ascii (c : ascii) : ascii :=
  let n := nat_of_ascii c in
  if ((65 <=? n) && (n <=? 90))%nat then ascii_of_nat (n + 32) else c.

Fixpoint lower (s : string) : string :=
  match s with
  | EmptyString => EmptyString
  | String c t => String (lower_ascii c) (lower t)
  end.

(** [s[:n]] for [n >= 0]: the first [n] characters. *)
Definition prefix (n : nat) (s : string) : string :=
  cat (firstn n (chars s)).
Arguments prefix : simpl never.

(** The maximal runs of characters that are not white space; [cur] holds
    the run being read, last character first. *)
Fixpoint words_from (cur : list string) (l : list string)
  : list (list string) :=
  match l with
  | [] =>
      match cur with
      | [] => []
      | _ => [rev cur]
      end
  | c :: t =>
      if is_space c then
        match cur with
        | [] => words_from [] t
        | _ => rev cur :: words_from [] t
        end
      else words_from (c :: cur) t
  end.

(** [text.split()]. *)
Definition split (s : string) : list string :=
  map cat (words_from [] (chars s)).

(** [sep.join(words)]. *)
Definition join (sep : string) (words : list string) : string :=
  String.concat sep words.

Fixpoint lstrip (l : list string) : list string :=
  match l with
  | [] => []
  | c :: t => if is_space c then lstrip t else l
  end.

(** [text.strip()]. *)
Definition strip (s : string) : string :=
  cat (rev (lstrip (rev (lstrip (chars s))))).

End Text.

(** ** Data model *)

(** A row of [reviews_df]: the text column (possibly [NaN]) and the place the
    review belongs to (a float column, [NaN] when unset; [astype(int)] of a
    set value is the integer kept here). *)
Record Review := mkReview {
  text : option string;
  place_firm_id : option Z
}.

(** A row of [places_df], which is taken to have the [firm_id] and [name]
    columns that [search_places] looks for. *)
Record Place := mkPlace {
  firm_id : Z;
  name : option string;
  address : option string;
  category : option string;
  rating : option Q
}.

(** A row of the frame [search_reviews] builds: the review's own columns and
    the six columns added by scoring. *)
Record ScoredReview := mkScored {
  sr_text : option string;
  sr_place_firm_id : Z;
  similarity_score : Q;
  sentiment_label : string;
  sentiment_score : Q;
  sentiment_weight : Q;
  sentiment_alignment : Q;
  final_review_score : Q
}.

(** A row of [place_scores] after the [groupby(...).agg(...)]. *)
Record PlaceScores := mkPlaceScores {
  ps_place_firm_id : Z;
  avg_score : Q;
  max_score : Q;
  review_count : nat;
  total_score : Q;
  positive_reviews : nat;
  negative_reviews : nat;
  neutral_reviews : nat
}.

(** A row of the frame [search_places] returns. *)
Record PlaceResult := mkPlaceResult {
  pr_name : option string;
  pr_address : option string;
  pr_category : option string;
  pr_rating : option Q;
  final_score : R;
  pr_scores : PlaceScores
}.

(** The two [ValueError]s of the module, told apart by their message:
    "Пустой или некорректный запрос" and "Unknown aggregation method: ...". *)
Inductive error :=
| InvalidQuery
| InvalidAggregation (aggregation : string).

Inductive result (A : Type) :=
| Ok (a : A)
| Raise (e : error).
Arguments Ok {A} a.
Arguments Raise {A} e.

(** Calls that leave the ranking core. *)
Inductive call :=
| SentimentCall (texts : list string)
| EncodeCall (query : string)
| IndexSearchCall (k : Z).

(** The mutable part of a [SemanticSearch] object, plus the log of the
    external calls made so far (most recent last). *)
Record Session := mkSession {
  _last_relevant_reviews : option (list ScoredReview);
  _last_query_sentiment : option string;
  calls : list call
}.

(** The state [__init__] leaves. *)
Definition init_session : Session := mkSession None None [].

(** The collaborators a [SemanticSearch] object holds after [__init__].
    [index_search v k] is the first row of [index.search(v, k)], as pairs of
    a label and its distance; the index asserts [k > 0]. *)
Record Backend := mkBackend {
  vector : Type;
  nfkc : string -> string;
  sentiment_model : string -> string * Q;
  model_encode : string -> vector;
  index_ntotal : Z;
  index_search : vector -> Z -> list (Z * Q);
  reviews_df : list Review;
  places_df : list Place
}.

(** ** [config.py] *)

Module config.
Definition DEFAULT_TOP_K : Z := 10.
Definition DEFAULT_MIN_REVIEWS : Z := 3.
Definition DEFAULT_AGGREGATION : string := "weighted".
End config.

(** ** A state-and-exception monad for the methods *)

Definition M (A : Type) : Type := Session -> result A * Session.

Definition ret {A} (a : A) : M A := fun s => (Ok a, s).

Definition raise {A} (e : error) : M A := fun s => (Raise e, s).

Definition bind {A B} (m : M A) (k : A -> M B) : M B :=
  fun s =>
    match m s with
    | (Ok a, s') => k a s'
    | (Raise e, s') => (Raise e, s')
    end.

Notation "x <- m ;; k" := (bind m (fun x => k))
  (at level 61, m at next level, right associativity).
Notation "m ;;; k" := (bind m (fun _ => k))
  (at level 61, right associativity).

Definition log (c : call) : M unit :=
  fun s => (Ok tt, mkSession (_last_relevant_reviews s)
                             (_last_query_sentiment s)
                             (calls s ++ [c])).

Definition set_last_query_sentiment (q : string) : M unit :=
  fun s => (Ok tt, mkSession (_last_relevant_reviews s) (Some q) (calls s)).

Definition set_last_relevant_reviews (l : list ScoredReview) : M unit :=
  fun s => (Ok tt, mkSession (Some l) (_last_query_sentiment s) (calls s)).

Definition get_session : M Session := fun s => (Ok s, s).

(** ** Frame operations *)

Section Frames.
Context {A : Type}.

(** Stable insertion in a list sorted in descending order of [key]: the new
    row goes before the first row that is not strictly greater. *)
Fixpoint insert_desc (ltb : A -> A -> bool) (x : A) (l : list A) : list A :=
  match l with
  | [] => [x]
  | y :: t => if ltb x y then y :: insert_desc ltb x t else x :: l
  end.

(** [sort_values(col, ascending=False)].  pandas sorts with quicksort and
    leaves the order of equal rows open; here they stay in row order. *)
Definition sort_desc (ltb : A -> A -> bool) (l : list A) : list A :=
  fold_right (insert_desc ltb) [] l.

(** [frame.nlargest(n, col)]: the first [n] rows in descending order of the
    column, ties in row order ([keep='first']); nothing when [n <= 0]. *)
Definition nlargest (ltb : A -> A -> bool) (n : Z) (l : list A) : list A :=
  firstn (Z.to_nat n) (sort_desc ltb l).

(** [frame.head(n)]: the first [n] rows, or all but the last [-n] rows when
    [n] is negative. *)
Definition head (n : Z) (l : list A) : list A :=
  if (0 <=? n)%Z then firstn (Z.to_nat n) l
  else firstn (List.length l - Z.to_nat (- n)) l.

(** [frame.groupby(key).head(n)]: a row is kept when fewer than [n] rows of
    its group come before it; [seen] holds the keys of the rows passed. *)
Fixpoint group_head_from (key : A -> Z) (n : nat) (seen : list Z)
                         (l : list A) : list A :=
  match l with
  | [] => []
  | r :: t =>
      if (count_occ Z.eq_dec seen (key r) <? n)%nat
      then r :: group_head_from key n (key r :: seen) t
      else group_head_from key n (key r :: seen) t
  end.

Definition group_head (key : A -> Z) (n : nat) (l : list A) : list A :=
  group_head_from key n [] l.

(** The rows of one group, in row order. *)
Definition group_rows (key : A -> Z) (k : Z) (l : list A) : list A :=
  filter (fun r => (key r =? k)%Z) l.

End Frames.

(** The group keys of a [groupby], ascending and without repetition. *)
Fixpoint insert_key (k : Z) (l : list Z) : list Z :=
  match l with
  | [] => [k]
  | h :: t =>
      if (k <? h)%Z then k :: l
      else if (k =? h)%Z then l
      else h :: insert_key k t
  end.

Definition group_keys {A} (key : A -> Z) (l : list A) : list Z :=
  fold_right insert_key [] (map key l).

(** ** Scoring tables *)

(** [sentiment_to_weight]: [weights.get(label.lower(), 1.0)]. *)
Definition sentiment_to_weight (label : string) : Q :=
  let label := Text.lower label in
  if label =? "positive" then 1.2%Q
  else if label =? "neutral" then 1.0%Q
  else if label =? "negative" then 0.8%Q
  else 1.0%Q.

(** The closure [align_sentiment] of [search_reviews], applied to the
    [sentiment_label] of a row. *)
Definition align_sentiment (query_sentiment review_sent : string) : Q :=
  if query_sentiment =? "negative" then
    if review_sent =? "positive" then 0.05%Q
    else if review_sent =? "negative" then 2.5%Q
    else 0.5%Q
  else if query_sentiment =? "positive" then
    if review_sent =? "negative" then 0.05%Q
    else if review_sent =? "positive" then 2.0%Q
    else 0.7%Q
  else 1.0%Q.

(** [min_score] of [search_reviews]. *)
Definition min_score (query_sentiment : string) : Q :=
  if query_sentiment =? "negative" then 0.15%Q else 0.20%Q.

Definition Qltb (x y : Q) : bool := negb (Qle_bool y x).

Definition Rltb (x y : R) : bool := if Rlt_dec x y then true else false.

(** [results['final_review_score'] > min_score]. *)
Definition above_min_score (query_sentiment : string) (r : ScoredReview)
  : bool :=
  Qltb (min_score query_sentiment) (final_review_score r).

Definition review_ltb (x y : ScoredReview) : bool :=
  Qltb (final_review_score x) (final_review_score y).

(** ** The methods of [SemanticSearch] *)

Section SemanticSearch.
Context (B : Backend).

(** [normalize_text] on a [str] argument. *)
Definition normalize_text (t : string) : string :=
  let t := nfkc B t in
  let t := Text.encode_ignore t in
  Text.join " " (Text.split t).

(** [_get_query_sentiment]. *)
Definition _get_query_sentiment (query : string) : M string :=
  log (SentimentCall [Text.prefix 512 query]) ;;;
  ret (Text.lower (fst (sentiment_model B (Text.prefix 512 query)))).

(** The text handed to the sentiment model for one row:
    [fillna] with the empty string, [astype(str)], and then [t[:512]]. *)
Definition model_text (t : option string) : string :=
  Text.prefix 512 (match t with Some s => s | None => EmptyString end).

(** The six scoring columns of one candidate row. *)
Definition score_row (query_sentiment : string) (row : Review * Z * Q)
  : ScoredReview :=
  let '(r, place, similarity) := row in
  let s := sentiment_model B (model_text (text r)) in
  let label := Text.lower (fst s) in
  let weight := sentiment_to_weight label in
  let alignment := align_sentiment query_sentiment label in
  mkScored (text r) place similarity label (snd s) weight alignment
           (similarity * weight * alignment)%Q.

(** [self.reviews_df.iloc] at one position; a negative position counts from
    the end of the frame.  Below [-len] pandas raises; the labels an index
    returns are positions or the padding label [-1], which stays in range
    of a frame that is not empty, and such a hit gives no row here. *)
Definition iloc (i : Z) : option Review :=
  let n := Z.of_nat (List.length (reviews_df B)) in
  let j := if (i <? 0)%Z then (n + i)%Z else i in
  if (j <? 0)%Z then None else nth_error (reviews_df B) (Z.to_nat j).

(** [indices[0] < len(self.reviews_df)], then [iloc]: the mask bounds the
    labels from above only, so the padding label [-1] passes it and reads
    the last review. *)
Definition valid_rows (hits : list (Z * Q)) : list (Review * Q) :=
  flat_map
    (fun h => match iloc (fst h) with
              | Some r => [(r, snd h)]
              | None => []
              end)
    (filter (fun h => (fst h <? Z.of_nat (List.length (reviews_df B)))%Z)
            hits).

(** [results[results['place_firm_id'].notna()]]. *)
Definition with_place (rows : list (Review * Q)) : list (Review * Z * Q) :=
  flat_map
    (fun rd => match place_firm_id (fst rd) with
               | Some p => [(fst rd, p, snd rd)]
               | None => []
               end)
    rows.

(** The frame of [search_reviews] once the six columns are added, before the
    threshold filter. *)
Definition scored_candidates (query_sentiment : string)
                             (rows : list (Review * Z * Q))
  : list ScoredReview :=
  map (score_row query_sentiment) rows.

(** [results[results['final_review_score'] > min_score]]. *)
Definition threshold_filter (query_sentiment : string)
                            (rows : list ScoredReview) : list ScoredReview :=
  filter (above_min_score query_sentiment) rows.

(** [search_reviews]. *)
Definition search_reviews (query : string) (top_k : Z)
  : M (list ScoredReview) :=
  let query := normalize_text query in
  if (String.length query =? 0)%nat then raise InvalidQuery
  else
    query_sentiment <- _get_query_sentiment query ;;
    set_last_query_sentiment query_sentiment ;;;
    log (EncodeCall query) ;;;
    let query_embedding := model_encode B query in
    let search_k := Z.min (top_k * 5) (index_ntotal B) in
    log (IndexSearchCall search_k) ;;;
    let hits := index_search B query_embedding search_k in
    let valid := valid_rows hits in
    match valid with
    | [] => ret []
    | _ =>
      let results := with_place valid in
      match results with
      | [] => ret []
      | _ =>
        log (SentimentCall
               (map (fun row => model_text (text (fst (fst row)))) results)) ;;;
        let results := scored_candidates query_sentiment results in
        let results := threshold_filter query_sentiment results in
        match results with
        | [] => ret []
        | _ => ret (nlargest review_ltb top_k results)
        end
      end
    end.

(** *** Aggregation by place *)

Definition Qsum (l : list Q) : Q := fold_right Qplus 0%Q l.

Definition Qmax_list (x : Q) (l : list Q) : Q :=
  fold_left (fun acc y => if Qle_bool acc y then y else acc) l x.

(** [(x == label).sum()]. *)
Definition count_label (label : string) (rows : list ScoredReview) : nat :=
  List.length (filter (fun r => sentiment_label r =? label) rows).

(** One row of [groupby('place_firm_id').agg(...)]: mean, max, count and sum
    of [final_review_score] and the three label counts of the group. *)
Definition aggregate_place (rows : list ScoredReview) (k : Z) : PlaceScores :=
  let g := group_rows sr_place_firm_id k rows in
  let scores := map final_review_score g in
  mkPlaceScores k
    (Qsum scores / inject_Z (Z.of_nat (List.length g)))%Q
    (match scores with [] => 0%Q | x :: t => Qmax_list x t end)
    (List.length g)
    (Qsum scores)
    (count_label "positive" g)
    (count_label "negative" g)
    (count_label "neutral" g).

Definition aggregate (rows : list ScoredReview) : list PlaceScores :=
  map (aggregate_place rows) (group_keys sr_place_firm_id rows).

(** The per-place cap: [sort_values("final_review_score", ascending=False)
    .groupby("place_firm_id").head(15)]. *)
Definition cap_per_place (rows : list ScoredReview) : list ScoredReview :=
  group_head sr_place_firm_id 15 (sort_desc review_ltb rows).

(** [place_scores[place_scores['review_count'] >= min_reviews]]. *)
Definition min_reviews_filter (min_reviews : Z) (ps : list PlaceScores)
  : list PlaceScores :=
  filter (fun p => (min_reviews <=? Z.of_nat (review_count p))%Z) ps.

(** [sentiment_ratio] of the weighted branch. *)
Definition sentiment_ratio (query_sentiment : string) (p : PlaceScores) : R :=
  if query_sentiment =? "negative" then
    (INR (negative_reviews p + 1)
     / INR (positive_reviews p + neutral_reviews p + 1))%R
  else
    (INR (positive_reviews p + 1) / INR (negative_reviews p + 1))%R.

(** [avg_score * np.log1p(review_count) * np.sqrt(sentiment_ratio)]. *)
Definition weighted_score (query_sentiment : string) (p : PlaceScores) : R :=
  (Q2R (avg_score p)
   * ln (1 + INR (review_count p))
   * sqrt (sentiment_ratio query_sentiment p))%R.

(** Step 4 of [search_places]: the [final_score] column, or the
    [ValueError] of the last branch. *)
Definition add_final_score (aggregation query_sentiment : string)
                           (ps : list PlaceScores)
  : result (list (PlaceScores * R)) :=
  if aggregation =? "mean" then
    Ok (map (fun p => (p, Q2R (avg_score p))) ps)
  else if aggregation =? "max" then
    Ok (map (fun p => (p, Q2R (max_score p))) ps)
  else if aggregation =? "weighted" then
    Ok (map (fun p => (p, weighted_score query_sentiment p)) ps)
  else Raise (InvalidAggregation aggregation).

Definition place_ltb (x y : PlaceScores * R) : bool :=
  Rltb (snd x) (snd y).

(** [place_scores.merge(places_df, left_on='place_firm_id',
    right_on='firm_id', how='left')] for one left row. *)
Definition merge_row (row : PlaceScores * R) : list PlaceResult :=
  match filter (fun pl => (firm_id pl =? ps_place_firm_id (fst row))%Z)
               (places_df B) with
  | [] => [mkPlaceResult None None None None (snd row) (fst row)]
  | matches =>
      map (fun pl => mkPlaceResult (name pl) (address pl) (category pl)
                                   (rating pl) (snd row) (fst row))
          matches
  end.

Definition name_eqb (x y : option string) : bool :=
  match x, y with
  | Some a, Some b => a =? b
  | None, None => true
  | _, _ => false
  end.

(** [drop_duplicates(subset=['name'], keep='first')]; [seen] holds the names
    of the rows passed. *)
Fixpoint drop_duplicates_from (seen : list (option string))
                              (l : list PlaceResult) : list PlaceResult :=
  match l with
  | [] => []
  | r :: t =>
      if existsb (name_eqb (pr_name r)) seen
      then drop_duplicates_from seen t
      else r :: drop_duplicates_from (pr_name r :: seen) t
  end.

(** [results['name'].notna() & (results['name'] != 'nan')]. *)
Definition has_name (r : PlaceResult) : bool :=
  match pr_name r with
  | Some n => negb (n =? "nan")
  | None => false
  end.

(** Steps 5 to 7 of [search_places]. *)
Definition join_and_clean (top_k : Z) (scored : list (PlaceScores * R))
  : list PlaceResult :=
  let place_scores := nlargest place_ltb (top_k * 2) scored in
  let results := flat_map merge_row place_scores in
  let results := drop_duplicates_from [] results in
  let results := filter has_name results in
  head top_k results.

(** [value or default] on an optional integer argument. *)
Definition or_default_Z (v : option Z) (d : Z) : Z :=
  match v with
  | Some n => if (n =? 0)%Z then d else n
  | None => d
  end.

(** [value or default] on an optional string argument. *)
Definition or_default_string (v : option string) (d : string) : string :=
  match v with
  | Some s => if (String.length s =? 0)%nat then d else s
  | None => d
  end.

(** [search_places]. *)
Definition search_places (query : string) (top_k min_reviews : option Z)
                         (aggregation : option string)
  : M (list PlaceResult) :=
  let top_k := or_default_Z top_k config.DEFAULT_TOP_K in
  let min_reviews := or_default_Z min_reviews config.DEFAULT_MIN_REVIEWS in
  let aggregation :=
    or_default_string aggregation config.DEFAULT_AGGREGATION in
  relevant_reviews <- search_reviews query 300 ;;
  match relevant_reviews with
  | [] => ret []
  | _ =>
    let relevant_reviews := cap_per_place relevant_reviews in
    set_last_relevant_reviews relevant_reviews ;;;
    s <- get_session ;;
    let query_sentiment :=
      or_default_string (_last_query_sentiment s) "neutral" in
    let place_scores := aggregate relevant_reviews in
    let place_scores := min_reviews_filter min_reviews place_scores in
    match place_scores with
    | [] => ret []
    | _ =>
      match add_final_score aggregation query_sentiment place_scores with
      | Raise e => raise e
      | Ok scored => ret (join_and_clean top_k scored)
      end
    end
  end.

(** *** Reads of the session cache *)

Definition indicator (sentiment : string) : string :=
  if sentiment =? "positive" then "[+]"
  else if sentiment =? "negative" then "[-]"
  else if sentiment =? "neutral" then "[~]"
  else EmptyString.

(** The body of the loop of [get_place_highlights]: the formatted text of a
    row, when its text is a [str] whose stripped length exceeds 20. *)
Definition highlight (row : ScoredReview) : option string :=
  match sr_text row with
  | Some t =>
      if (20 <? Text.length (Text.strip t))%nat
      then Some (indicator (sentiment_label row) ++ " " ++ normalize_text t)%string
      else None
  | None => None
  end.

Fixpoint highlights_of (rows : list ScoredReview) : list string :=
  match rows with
  | [] => []
  | r :: t =>
      match highlight r with
      | Some h => h :: highlights_of t
      | None => highlights_of t
      end
  end.

(** [top_reviews] of [get_place_highlights], [[]] where the method returns
    early. *)
Definition top_reviews (s : Session) (place_firm_id top_k : Z)
  : list ScoredReview :=
  match _last_relevant_reviews s with
  | None => []
  | Some [] => []
  | Some last =>
      match group_rows sr_place_firm_id place_firm_id last with
      | [] => []
      | place_reviews => nlargest review_ltb top_k place_reviews
      end
  end.

(** [get_place_highlights] (its [query] argument is unused). *)
Definition get_place_highlights (place_firm_id top_k : Z) : M (list string) :=
  s <- get_session ;;
  ret (highlights_of (top_reviews s place_firm_id top_k)).

(** [get_place_sentiment_stats]: the (positive, negative, neutral) counts. *)
Definition get_place_sentiment_stats (place_firm_id : Z)
  : M (nat * nat * nat) :=
  s <- get_session ;;
  match _last_relevant_reviews s with
  | None => ret (0, 0, 0)%nat
  | Some last =>
      let place_reviews := group_rows sr_place_firm_id place_firm_id last in
      ret (count_label "positive" place_reviews,
           count_label "negative" place_reviews,
           count_label "neutral" place_reviews)
  end.

End SemanticSearch.

(** ** The caller: the search request of [2v/app.py]

    The Streamlit page, reduced to what it asks of the search engine: which
    calls it makes with which arguments, and which of its four displays it
    ends in.  The rendering itself is left out. *)

(** What the page shows below the search box. *)
Inductive View :=
| Idle
| AskForQuery
| NothingFound
| Results (cards : list (PlaceResult * list string)).

Section App.
Context (B : Backend).

(** The loop over [results.iterrows()]: one card per row, with the
    highlights [get_place_highlights(place_firm_id, query, top_k=3)]. *)
Fixpoint result_cards (rows : list PlaceResult)
  : M (list (PlaceResult * list string)) :=
  match rows with
  | [] => ret []
  | row :: rest =>
      highlights <-
        get_place_highlights B (ps_place_firm_id (pr_scores row)) 3 ;;
      cards <- result_cards rest ;;
      ret ((row, highlights) :: cards)
  end.

(** The block under [if search_button or query:], with the values of the
    three sidebar widgets. *)
Definition app_search (search_button : bool) (query : string)
                      (top_k min_reviews : Z) (aggregation : string)
  : M View :=
  if search_button || negb (String.length query =? 0)%nat then
    if (String.length query =? 0)%nat then ret AskForQuery
    else
      results <- search_places B query (Some top_k) (Some min_reviews)
                               (Some aggregation) ;;
      match results with
      | [] => ret NothingFound
      | _ => cards <- result_cards results ;; ret (Results cards)
      end
  else ret Idle.

End App.

(** ** Data preparation: the text column of [2v/step1_prepare.load_data] *)

Module prepare.

(** Whether a column of the reviews frame has [dtype == 'object']. *)
Inductive dtype := object_dtype | other_dtype.

(** [config.TEXT_COLUMN]. *)
Definition TEXT_COLUMN : string := "text".

Definition has_column (c : string) (columns : list (string * dtype))
  : bool :=
  existsb (fun col => fst col =? c) columns.

Definition is_object (col : string * dtype) : bool :=
  match snd col with
  | object_dtype => true
  | other_dtype => false
  end.

(** The choice of [text_col]; [None] is the [ValueError] of the last
    branch. *)
Definition text_column (configured : string)
                       (columns : list (string * dtype)) : option string :=
  if has_column configured columns then Some configured
  else if has_column "text" columns then Some "review_text"
  else
    match filter is_object columns with
    | [] => None
    | col :: _ => Some (fst col)
    end.

End prepare.

(** ** A small concrete backend

    A fake of the kind a unit test would inject: the sentiment model reads
    the first character of a text ([-] negative, [+] positive, anything else
    neutral), the encoder is the identity, Unicode normalisation is the
    identity, and the index answers every query with the first [k] entries of
    a fixed hit list. *)

Module Fake.

Definition fake_sentiment (t : string) : string * Q :=
  match t with
  | String "-" _ => ("NEGATIVE", 0.9%Q)
  | String "+" _ => ("POSITIVE", 0.9%Q)
  | _ => ("NEUTRAL", 0.9%Q)
  end.

Definition backend (reviews : list Review) (places : list Place)
                   (hits : list (Z * Q)) : Backend :=
  mkBackend string
            (fun t => t)
            fake_sentiment
            (fun t => t)
            (Z.of_nat (List.length reviews))
            (fun _ k => firstn (Z.to_nat k) hits)
            reviews
            places.

Definition place (id : Z) (n : string) : Place :=
  mkPlace id (Some n) None None None.

(** The scenario of two reviews of one place at similarity 0.9, one negative
    and one positive. *)
Definition two_reviews : Backend :=
  backend
    [ mkReview (Some "- the service was terribly slow") (Some 7%Z);
      mkReview (Some "+ the coffee was really lovely") (Some 7%Z) ]
    [ place 7 "Cafe" ]
    [ (0%Z, 0.9%Q); (1%Z, 0.9%Q) ].

(** One negative review at similarity 0.25: under a neutral query it scores
    0.25 * 0.8 * 1.0, which is the neutral-query threshold (also in binary
    floating point, where 0.25 * 0.8 is exactly the double 0.2). *)
Definition borderline : Backend :=
  backend
    [ mkReview (Some "- the soup arrived cold again") (Some 3%Z) ]
    [ place 3 "Diner" ]
    [ (0%Z, 0.25%Q) ].

(** One neutral review that points away from the query. *)
Definition opposite : Backend :=
  backend
    [ mkReview (Some "a table by the window, open late") (Some 3%Z) ]
    [ place 3 "Diner" ]
    [ (0%Z, (-0.5)%Q) ].

(** Sixteen neutral reviews of one place, all at similarity 0.9. *)
Definition crowded : Backend :=
  backend
    (repeat (mkReview (Some "a table by the window, open late") (Some 5%Z))
            16)
    [ place 5 "Canteen" ]
    (map (fun i => (Z.of_nat i, 0.9%Q)) (seq 0 16)).

(** A single negative review. *)
Definition one_negative : Backend :=
  backend
    [ mkReview (Some "- the service was terribly slow") (Some 7%Z) ]
    [ place 7 "Cafe" ]
    [ (0%Z, 0.9%Q) ].

(** A single negative review whose text is short: eighteen characters. *)
Definition terse : Backend :=
  backend
    [ mkReview (Some "- slow, rude staff") (Some 7%Z) ]
    [ place 7 "Cafe" ]
    [ (0%Z, 0.9%Q) ].

(** Two places with one neutral review each; the index names the review of
    the first place first, at the lower similarity. *)
Definition two_places : Backend :=
  backend
    [ mkReview (Some "a table by the window, open late") (Some 1%Z);
      mkReview (Some "a quiet room and a long menu") (Some 2%Z) ]
    [ place 1 "Diner"; place 2 "Bistro" ]
    [ (0%Z, 0.5%Q); (1%Z, 0.9%Q) ].

(** Two reviews of one place, and an index that pads its answer with the
    label [-1]. *)
Definition padded : Backend :=
  backend
    [ mkReview (Some "- the service was terribly slow") (Some 7%Z);
      mkReview (Some "+ the coffee was really lovely") (Some 7%Z) ]
    [ place 7 "Cafe" ]
    [ (0%Z, 0.9%Q); ((-1)%Z, 0.8%Q) ].

(** Twelve places with one neutral review each, all at similarity 0.9. *)
Definition twelve_places : Backend :=
  backend
    (map (fun i => mkReview (Some "a table by the window, open late")
                            (Some (Z.of_nat i)))
         (seq 1 12))
    (map (fun i => place (Z.of_nat i)
                         (String (ascii_of_nat (64 + i)) EmptyString))
         (seq 1 12))
    (map (fun i => (Z.of_nat i, 0.9%Q)) (seq 0 12)).

End Fake.

(** ** Notions used in the statements *)

(** [score_ge x y]: row [x] scores at least as much as row [y]. *)
Definition score_ge (x y : ScoredReview) : Prop :=
  (final_review_score y <= final_review_score x)%Q.

Section Notions.
Context (B : Backend).

(** The label [search_reviews] stores for a query. *)
Definition query_label (query : string) : string :=
  Text.lower
    (fst (sentiment_model B (Text.prefix 512 (normalize_text B query)))).

(** The hits [search_reviews] gets from the index for a query. *)
Definition query_hits (query : string) (top_k : Z) : list (Z * Q) :=
  index_search B (model_encode B (normalize_text B query))
               (Z.min (top_k * 5) (index_ntotal B)).

(** The three calls every accepted query makes, in order. *)
Definition query_calls (query : string) (top_k : Z) : list call :=
  [ SentimentCall [Text.prefix 512 (normalize_text B query)];
    EncodeCall (normalize_text B query);
    IndexSearchCall (Z.min (top_k * 5) (index_ntotal B)) ].

End Notions.

(** The session after the cache write of [search_places]. *)
Definition cached (capped : list ScoredReview) (s : Session) : Session :=
  mkSession (Some capped) (_last_query_sentiment s) (calls s).

(** The index searches in the call log of a session. *)
Definition index_searches (s : Session) : list call :=
  filter (fun c => match c with IndexSearchCall _ => true | _ => false end)
         (calls s).

(** The guard of the loop of [get_place_highlights]. *)
Definition has_long_text (r : ScoredReview) : bool :=
  match sr_text r with
  | Some t => (20 <? Text.length (Text.strip t))%nat
  | None => false
  end.

(** The string the loop appends for a row that passes the guard. *)
Definition marked_text (B : Backend) (r : ScoredReview) : string :=
  (indicator (sentiment_label r) ++ " "
   ++ normalize_text B (match sr_text r with
                        | Some t => t
                        | None => EmptyString
                        end))%string.

(** The three labels of the sentiment classifier. *)
Inductive Label := positive | neutral | negative.

Definition label_name (l : Label) : string :=
  match l with
  | positive => "positive"
  | neutral => "neutral"
  | negative => "negative"
  end.

(** The base multiplier, as the specification words it. *)
Definition spec_sentiment_weight (review : Label) : Q :=
  match review with
  | positive => 1.2%Q
  | neutral => 1.0%Q
  | negative => 0.8%Q
  end.

(** The 3x3 alignment table, as the specification words it. *)
Definition spec_sentiment_alignment (query review : Label) : Q :=
  match query, review with
  | negative, positive => 0.05%Q
  | negative, neutral => 0.5%Q
  | negative, negative => 2.5%Q
  | positive, positive => 2.0%Q
  | positive, neutral => 0.7%Q
  | positive, negative => 0.05%Q
  | neutral, _ => 1.0%Q
  end.

(** [ranked a b]: place [a] has at least the [final_score] of place [b]. *)
Definition ranked (a b : PlaceResult) : Prop :=
  (final_score b <= final_score a)%R.

(** The row [search_places] returns on [Fake.two_reviews] for a negative
    query with [min_reviews = 1] and the weighted strategy. *)
Definition cafe_scores : PlaceScores :=
  mkPlaceScores 7 (1.800 / 1) 1.800 1 (1.800 + 0) 0 1 0.

Definition cafe_row : PlaceResult :=
  mkPlaceResult (Some "Cafe") None None None
                (weighted_score "negative" cafe_scores) cafe_scores.

(** The line separator U+2028 and the no-break space U+00A0. *)
Definition line_separator : string :=
  String "226" (String "128" (String "168" EmptyString)).

Definition no_break_space : string :=
  String "194" (String "160" EmptyString).

(** The ideographic space U+3000 and the lone surrogate U+D800. *)
Definition ideographic_space : string :=
  String "227" (String "128" (String "128" EmptyString)).

Definition lone_surrogate : string :=
  String "237" (String "160" (String "128" EmptyString)).

(** [all_space s]: every character of [s] is white space. *)
Definition all_space (s : string) : bool :=
  forallb Text.is_space (Text.chars s).

Definition not_space (c : string) : bool := negb (Text.is_space c).

(** [is_word s]: [s] is not empty and holds no white space. *)
Definition is_word (s : string) : Prop :=
  s <> EmptyString
  /\ forallb not_space (Text.chars s) = true.

(** [whole c]: the string [c] is one character with all its bytes. *)
Definition whole (c : string) : bool :=
  match c with
  | EmptyString => false
  | String b r => (String.length r =? Text.width b - 1)%nat
  end.

(** [started c]: the string [c] is one character or the first bytes of
    one. *)
Definition started (c : string) : bool :=
  match c with
  | EmptyString => false
  | String b r => (String.length r <=? Text.width b - 1)%nat
  end.

(** [characters l]: the strings of [l] are characters, all of them whole
    except that the last may be cut short. *)
Fixpoint characters (l : list string) : bool :=
  match l with
  | [] => true
  | c :: t =>
      match t with
      | [] => started c
      | _ => whole c && characters t
      end
  end.

(** The characters of words written with one space between them. *)
Fixpoint spaced (ws : list (list string)) : list string :=
  match ws with
  | [] => []
  | w :: t =>
      match t with
      | [] => w
      | _ => w ++ " "%string :: spaced t
      end
  end.

(** * Properties *)

(** ** Facts about the frame operations *)

Section FrameFacts.
Context {A : Type}.

Lemma firstn_In (n : nat) (l : list A) (x : A) :
  In x (firstn n l) -> In x l.
Proof.
  revert l; induction n as [|n IH]; intros [|y t]; simpl; try tauto.
  intros [E|H]; auto.
Qed.

Lemma head_In (n : Z) (l : list A) (x : A) : In x (head n l) -> In x l.
Proof. unfold head. destruct (0 <=? n)%Z; apply firstn_In. Qed.

Lemma head_length (n : Z) (l : list A) :
  (0 <= n)%Z -> (List.length (head n l) <= Z.to_nat n)%nat.
Proof.
  intros Hn. unfold head.
  destruct (Z.leb_spec 0 n); [|lia].
  rewrite length_firstn. lia.
Qed.

Section Sorting.
Variable ltb : A -> A -> bool.

Lemma insert_desc_perm (x : A) (l : list A) :
  Permutation (x :: l) (insert_desc ltb x l).
Proof.
  induction l as [|y t IH]; simpl.
  - apply Permutation_refl.
  - destruct (ltb x y).
    + eapply Permutation_trans; [apply perm_swap|].
      now apply perm_skip.
    + apply Permutation_refl.
Qed.

Lemma sort_desc_perm (l : list A) : Permutation l (sort_desc ltb l).
Proof.
  induction l as [|x t IH]; simpl.
  - constructor.
  - eapply Permutation_trans; [|apply insert_desc_perm].
    now apply perm_skip.
Qed.

Lemma sort_desc_In (l : list A) (x : A) : In x (sort_desc ltb l) <-> In x l.
Proof.
  split; apply Permutation_in;
    [apply Permutation_sym|]; apply sort_desc_perm.
Qed.

Lemma sort_desc_length (l : list A) :
  List.length (sort_desc ltb l) = List.length l.
Proof. symmetry. apply Permutation_length, sort_desc_perm. Qed.

Lemma nlargest_In (n : Z) (l : list A) (x : A) :
  In x (nlargest ltb n l) -> In x l.
Proof.
  unfold nlargest. intros H. apply sort_desc_In. eapply firstn_In, H.
Qed.

Lemma nlargest_length (n : Z) (l : list A) :
  List.length (nlargest ltb n l) = Nat.min (Z.to_nat n) (List.length l).
Proof.
  unfold nlargest. now rewrite length_firstn, sort_desc_length.
Qed.

(** When no row is strictly below another the sort leaves the frame as it
    is. *)
Lemma sort_desc_ties (l : list A) :
  (forall x y, In x l -> In y l -> ltb x y = false) ->
  sort_desc ltb l = l.
Proof.
  induction l as [|x t IH]; intros H; simpl; [reflexivity|].
  rewrite IH by (intros; apply H; now right).
  destruct t as [|y t']; simpl; [reflexivity|].
  rewrite H; [reflexivity|now left|right; now left].
Qed.

End Sorting.

(** Rows of one group kept by a [groupby(...).head(n)]. *)
Lemma group_rows_group_head_from (key : A -> Z) (n : nat) (k : Z)
                                 (seen : list Z) (l : list A) :
  group_rows key k (group_head_from key n seen l) =
  firstn (n - count_occ Z.eq_dec seen k) (group_rows key k l).
Proof.
  unfold group_rows.
  revert seen; induction l as [|r t IH]; intros seen; simpl.
  - now rewrite firstn_nil.
  - destruct (Nat.ltb_spec (count_occ Z.eq_dec seen (key r)) n) as [Hlt|Hge];
      simpl; destruct (Z.eqb_spec (key r) k) as [E|NE].
    + rewrite IH. subst k. simpl.
      destruct (Z.eq_dec (key r) (key r)); [|congruence].
      destruct (n - count_occ Z.eq_dec seen (key r))%nat eqn:D; [lia|].
      simpl. f_equal. f_equal. lia.
    + rewrite IH. simpl.
      destruct (Z.eq_dec (key r) k); [congruence|reflexivity].
    + rewrite IH. subst k. simpl.
      destruct (Z.eq_dec (key r) (key r)); [|congruence].
      replace (n - count_occ Z.eq_dec seen (key r))%nat with 0%nat by lia.
      replace (n - S (count_occ Z.eq_dec seen (key r)))%nat with 0%nat by lia.
      reflexivity.
    + rewrite IH. simpl.
      destruct (Z.eq_dec (key r) k); [congruence|reflexivity].
Qed.

Lemma group_rows_group_head (key : A -> Z) (n : nat) (k : Z) (l : list A) :
  group_rows key k (group_head key n l) = firstn n (group_rows key k l).
Proof.
  unfold group_head. rewrite group_rows_group_head_from. simpl.
  now rewrite Nat.sub_0_r.
Qed.

Lemma group_head_from_In (key : A -> Z) (n : nat) (seen : list Z)
                         (l : list A) (x : A) :
  In x (group_head_from key n seen l) -> In x l.
Proof.
  revert seen; induction l as [|r t IH]; intros seen; simpl; [tauto|].
  destruct (count_occ Z.eq_dec seen (key r) <? n)%nat; simpl.
  - intros [E|H]; [now left|right; eapply IH, H].
  - intros H; right; eapply IH, H.
Qed.

Lemma group_head_In (key : A -> Z) (n : nat) (l : list A) (x : A) :
  In x (group_head key n l) -> In x l.
Proof. apply group_head_from_In. Qed.

Lemma group_rows_In (key : A -> Z) (k : Z) (l : list A) (x : A) :
  In x (group_rows key k l) <-> In x l /\ key x = k.
Proof.
  unfold group_rows. rewrite filter_In.
  now rewrite Z.eqb_eq.
Qed.

End FrameFacts.

Lemma insert_key_In (k x : Z) (l : list Z) :
  In x (insert_key k l) <-> x = k \/ In x l.
Proof.
  induction l as [|h t IH]; simpl.
  - intuition.
  - destruct (Z.ltb_spec k h); simpl; [intuition|].
    destruct (Z.eqb_spec k h); simpl; [subst; intuition|].
    rewrite IH. intuition.
Qed.

Lemma group_keys_In {A} (key : A -> Z) (l : list A) (k : Z) :
  In k (group_keys key l) <-> exists x, In x l /\ key x = k.
Proof.
  unfold group_keys. induction l as [|r t IH]; simpl.
  - split; [tauto|intros [x [[] _]]].
  - rewrite insert_key_In, IH. split.
    + intros [E|[x [Hx Ek]]]; [exists r; auto|exists x; auto].
    + intros [x [[E|Hx] Ek]]; [subst; now left|right; now exists x].
Qed.

(** ** Facts about scores *)

Lemma Qltb_lt (x y : Q) : Qltb x y = true <-> (x < y)%Q.
Proof.
  unfold Qltb. rewrite negb_true_iff. split.
  - intros H. apply Qnot_le_lt. intros Hle.
    apply Qle_bool_iff in Hle. congruence.
  - intros H. destruct (Qle_bool y x) eqn:E; [|reflexivity].
    apply Qle_bool_iff in E. exfalso. now apply (Qlt_not_le x y).
Qed.

Lemma Qltb_ge (x y : Q) : Qltb x y = false <-> (y <= x)%Q.
Proof.
  unfold Qltb. rewrite negb_false_iff. apply Qle_bool_iff.
Qed.

Lemma insert_desc_sorted (x : ScoredReview) (l : list ScoredReview) :
  StronglySorted score_ge l ->
  StronglySorted score_ge (insert_desc review_ltb x l).
Proof.
  induction 1 as [|y t Hs IH Hy]; simpl.
  - repeat constructor.
  - unfold review_ltb at 1.
    destruct (Qltb (final_review_score x) (final_review_score y)) eqn:E.
    + constructor; [exact IH|].
      eapply Permutation_Forall; [apply insert_desc_perm|].
      constructor; [|exact Hy].
      apply Qltb_lt in E. now apply Qlt_le_weak.
    + apply Qltb_ge in E.
      constructor; [now constructor|].
      constructor; [exact E|].
      eapply Forall_impl; [|exact Hy].
      intros z Hz. unfold score_ge in *. eapply Qle_trans; eauto.
Qed.

Lemma sort_desc_sorted (l : list ScoredReview) :
  StronglySorted score_ge (sort_desc review_ltb l).
Proof.
  induction l as [|x t IH]; simpl.
  - constructor.
  - now apply insert_desc_sorted.
Qed.

Lemma StronglySorted_filter {A} (R : A -> A -> Prop) (f : A -> bool)
                            (l : list A) :
  StronglySorted R l -> StronglySorted R (filter f l).
Proof.
  induction 1 as [|x t Hs IH Hx]; simpl; [constructor|].
  destruct (f x); [|exact IH].
  constructor; [exact IH|].
  apply Forall_forall. intros y Hy. apply filter_In in Hy.
  rewrite Forall_forall in Hx. now apply Hx.
Qed.

Lemma StronglySorted_firstn {A} (R : A -> A -> Prop) (n : nat) (l : list A) :
  StronglySorted R l -> StronglySorted R (firstn n l).
Proof.
  intros H; revert n; induction H as [|x t Hs IH Hx]; intros [|n]; simpl;
    try constructor.
  - apply IH.
  - apply Forall_forall. intros y Hy. apply firstn_In in Hy.
    rewrite Forall_forall in Hx. now apply Hx.
Qed.

(** In a sorted frame every row of the first [n] dominates every row after
    them. *)
Lemma StronglySorted_firstn_skipn {A} (R : A -> A -> Prop) (n : nat)
                                  (l : list A) (x y : A) :
  StronglySorted R l -> In x (firstn n l) -> In y (skipn n l) -> R x y.
Proof.
  intros H; revert n; induction H as [|z t Hs IH Hz]; intros [|n]; simpl;
    try tauto.
  intros [E|Hx] Hy.
  - subst z. rewrite Forall_forall in Hz. apply Hz.
    rewrite <- (firstn_skipn n t). apply in_or_app. now right.
  - now apply (IH n).
Qed.

Lemma Qsum_pos (l : list Q) :
  Forall (fun x => 0 < x)%Q l -> (0 <= Qsum l)%Q.
Proof.
  induction 1 as [|x t Hx Ht IH]; simpl.
  - apply Qle_refl.
  - replace 0%Q with (0 + 0)%Q by reflexivity.
    apply Qplus_le_compat; [now apply Qlt_le_weak|exact IH].
Qed.

Lemma Qmax_list_ge (x : Q) (l : list Q) : (x <= Qmax_list x l)%Q.
Proof.
  unfold Qmax_list. revert x; induction l as [|y t IH]; intros x; simpl.
  - apply Qle_refl.
  - destruct (Qle_bool x y) eqn:E.
    + apply Qle_bool_iff in E. eapply Qle_trans; [exact E|apply IH].
    + apply IH.
Qed.

(** ** What [search_reviews] does *)

Section SearchReviewsFacts.
Context (B : Backend).

Ltac run_search_reviews :=
  unfold search_reviews, _get_query_sentiment, set_last_query_sentiment,
         log, bind, ret, raise; simpl.

Lemma search_reviews_empty_query (query : string) (top_k : Z) (s : Session) :
  String.length (normalize_text B query) = 0%nat ->
  search_reviews B query top_k s = (Raise InvalidQuery, s).
Proof.
  intros H. unfold search_reviews. rewrite H. reflexivity.
Qed.

Lemma search_reviews_accepted (query : string) (top_k : Z) (s : Session) :
  String.length (normalize_text B query) <> 0%nat ->
  exists rel extra,
    search_reviews B query top_k s =
      (Ok rel,
       mkSession (_last_relevant_reviews s)
                 (Some (query_label B query))
                 (calls s ++ query_calls B query top_k ++ extra))
    /\ (extra = [] \/ exists texts, extra = [SentimentCall texts])
    /\ (forall r, In r rel ->
          In r (threshold_filter (query_label B query)
                  (scored_candidates B (query_label B query)
                     (with_place (valid_rows B (query_hits B query top_k)))))).
Proof.
  intros H. unfold search_reviews.
  destruct (Nat.eqb_spec (String.length (normalize_text B query)) 0);
    [contradiction|].
  run_search_reviews.
  fold (query_label B query). fold (query_hits B query top_k).
  unfold query_calls.
  destruct (valid_rows B (query_hits B query top_k)) as [|v vs] eqn:Ev.
  { exists [], []. simpl. rewrite <- !app_assoc. simpl.
    repeat split; auto; intros r []. }
  destruct (with_place (v :: vs)) as [|w ws] eqn:Ew.
  { exists [], []. simpl. rewrite <- !app_assoc. simpl.
    repeat split; auto; intros r []. }
  destruct (threshold_filter (query_label B query)
              (scored_candidates B (query_label B query) (w :: ws)))
    as [|t ts] eqn:Et.
  - eexists [], [_].
    cbn [_last_relevant_reviews _last_query_sentiment calls app].
    rewrite <- !app_assoc.
    split; [reflexivity|]. split; [right; eexists; reflexivity|].
    intros r [].
  - eexists _, [_].
    cbn [_last_relevant_reviews _last_query_sentiment calls app].
    rewrite <- !app_assoc.
    split; [reflexivity|]. split; [right; eexists; reflexivity|].
    intros r Hr. apply nlargest_In in Hr. exact Hr.
Qed.

(** [search_reviews] either rejects the query or returns a frame. *)
Lemma search_reviews_inv (query : string) (top_k : Z) (s s' : Session)
                         (rel : list ScoredReview) :
  search_reviews B query top_k s = (Ok rel, s') ->
  String.length (normalize_text B query) <> 0%nat
  /\ _last_query_sentiment s' = Some (query_label B query)
  /\ _last_relevant_reviews s' = _last_relevant_reviews s
  /\ (forall r, In r rel ->
        In r (threshold_filter (query_label B query)
                (scored_candidates B (query_label B query)
                   (with_place (valid_rows B (query_hits B query top_k)))))).
Proof.
  intros H.
  destruct (Nat.eq_dec (String.length (normalize_text B query)) 0) as [E|NE].
  - rewrite (search_reviews_empty_query _ _ _ E) in H. discriminate.
  - destruct (search_reviews_accepted query top_k s NE)
      as (rel' & extra & Hrun & _ & Hin).
    rewrite Hrun in H. inversion H; subst. simpl. auto.
Qed.

End SearchReviewsFacts.

(** ** Review scoring *)

(** C1. Every row of the scored candidate frame carries
    [final_review_score = similarity * sentiment_weight * sentiment_alignment],
    the two factors being the table entries for the row's label and the
    query's label. *)
Theorem C1_final_review_score (B : Backend) (query review : Label)
    (rows : list (Review * Z * Q)) (r : ScoredReview) :
  In r (scored_candidates B (label_name query) rows) ->
  sentiment_label r = label_name review ->
  sentiment_weight r = spec_sentiment_weight review
  /\ sentiment_alignment r = spec_sentiment_alignment query review
  /\ final_review_score r =
       (similarity_score r
        * spec_sentiment_weight review
        * spec_sentiment_alignment query review)%Q.
Proof.
  unfold scored_candidates. intros Hin Hlabel.
  apply in_map_iff in Hin. destruct Hin as ([[rv place] sim] & Hr & _).
  subst r. unfold score_row in *. cbn [sentiment_label] in Hlabel.
  cbn [sentiment_weight sentiment_alignment final_review_score
       similarity_score].
  rewrite Hlabel.
  destruct query, review; repeat split; reflexivity.
Qed.

Lemma C1_final_review_score_witness :
  let r := score_row Fake.two_reviews "negative"
             (mkReview (Some "- the service was terribly slow") (Some 7%Z),
              7%Z, 0.9%Q) in
  final_review_score r = (0.9 * 0.8 * 2.5)%Q.
Proof.
  intros r.
  apply (C1_final_review_score Fake.two_reviews negative negative
           [(mkReview (Some "- the service was terribly slow") (Some 7%Z),
             7%Z, 0.9%Q)] r).
  - simpl. left. reflexivity.
  - reflexivity.
Defined.

(** The worked scenario: under a negative query the negative review at
    similarity 0.9 scores 1.8 and stays, the positive one scores 0.054 and is
    dropped. *)
Example negative_query_scenario :
  exists r,
    fst (search_reviews Fake.two_reviews "- awful service" 300 init_session)
      = Ok [r]
    /\ sentiment_label r = "negative"
    /\ (final_review_score r == 1.8)%Q.
Proof. eexists. repeat split. Qed.

(** ** The threshold filter *)

(** C2, as stated, fails on a review that sits exactly on the threshold: the
    negative review of [Fake.borderline] scores 0.25 * 0.8 * 1.0 = 0.2 under
    a neutral query, the bar is 0.20, and the filter drops it. *)
Lemma C2_threshold_counterexample :
  let rows := scored_candidates Fake.borderline "neutral"
                [(mkReview (Some "- the soup arrived cold again")
                           (Some 3%Z), 3%Z, 0.25%Q)] in
  exists r,
    In r rows
    /\ sentiment_label r = "negative"
    /\ (final_review_score r == 0.2)%Q
    /\ (min_score "neutral" <= final_review_score r)%Q
    /\ ~ In r (threshold_filter "neutral" rows)
    /\ fst (search_reviews Fake.borderline "quiet diner" 300 init_session)
       = Ok [].
Proof.
  eexists. split; [left; reflexivity|].
  split; [reflexivity|]. split; [reflexivity|].
  split; [vm_compute; discriminate|].
  split; [vm_compute; tauto|reflexivity].
Qed.

(** C2, amended. The filter keeps exactly the rows whose
    [final_review_score] is strictly greater than the bar, in their order,
    and the bar is 0.15 for a negative query and 0.20 for any other. *)
Theorem C2_threshold_filter (query_sentiment : string)
    (rows : list ScoredReview) :
  (forall r,
     In r (threshold_filter query_sentiment rows) <->
     In r rows /\ (min_score query_sentiment < final_review_score r)%Q)
  /\ threshold_filter query_sentiment rows =
       filter (fun r => negb (Qle_bool (final_review_score r)
                                       (min_score query_sentiment))) rows
  /\ min_score query_sentiment =
       (if query_sentiment =? "negative" then 0.15 else 0.20)%Q.
Proof.
  split; [|split; reflexivity].
  intros r. unfold threshold_filter, above_min_score.
  rewrite filter_In, Qltb_lt. tauto.
Qed.

(** ** Empty queries *)

(** C7. A query whose normalised text is empty makes [search_reviews] and
    [search_places] raise [InvalidQuery] with the session, and so the call
    log, untouched: no index search, no model call.  So a call that searched
    the index had a query whose normalised text is not empty.  Such a query,
    when the number of candidates asked of the index is positive, is
    accepted and searches the index exactly once. *)
Theorem C7_empty_query_fails_fast (B : Backend) (query : string)
    (top_k : Z) (k min_reviews : option Z) (aggregation : option string)
    (s : Session) :
  (String.length (normalize_text B query) = 0%nat ->
     search_reviews B query top_k s = (Raise InvalidQuery, s)
     /\ search_places B query k min_reviews aggregation s
        = (Raise InvalidQuery, s))
  /\ (index_searches (snd (search_reviews B query top_k s))
        <> index_searches s ->
      String.length (normalize_text B query) <> 0%nat)
  /\ (String.length (normalize_text B query) <> 0%nat ->
      (0 < Z.min (top_k * 5) (index_ntotal B))%Z ->
        exists rel s',
          search_reviews B query top_k s = (Ok rel, s')
          /\ index_searches s' =
               index_searches s
               ++ [IndexSearchCall (Z.min (top_k * 5) (index_ntotal B))]).
Proof.
  split; [|split].
  - intros H. split; [now apply search_reviews_empty_query|].
    unfold search_places, bind.
    now rewrite search_reviews_empty_query.
  - intros Hlog E. apply Hlog.
    now rewrite search_reviews_empty_query.
  - intros H _.
    destruct (search_reviews_accepted B query top_k s H)
      as (rel & extra & Hrun & Hextra & _).
    eexists _, _. split; [exact Hrun|].
    unfold index_searches. cbn [calls]. unfold query_calls.
    rewrite !filter_app. cbn [filter].
    destruct Hextra as [->|[texts ->]]; reflexivity.
Qed.

(** The first query is a line separator followed by a space. *)
Lemma C7_empty_query_fails_fast_witness :
  search_places Fake.two_reviews (line_separator ++ " ")
                None None None init_session
    = (Raise InvalidQuery, init_session)
  /\ String.length (normalize_text Fake.two_reviews "- awful   service ")
     <> 0%nat
  /\ exists rel s',
       search_reviews Fake.two_reviews "- awful   service " 300 init_session
         = (Ok rel, s')
       /\ index_searches s' = [IndexSearchCall 2].
Proof.
  split; [|split].
  - apply (proj1 (C7_empty_query_fails_fast Fake.two_reviews
                    (line_separator ++ " ") 300
                    None None None init_session)).
    reflexivity.
  - apply (proj1 (proj2 (C7_empty_query_fails_fast Fake.two_reviews
                           "- awful   service " 300 None None None
                           init_session))).
    vm_compute. discriminate.
  - apply (proj2 (proj2 (C7_empty_query_fails_fast Fake.two_reviews
                           "- awful   service " 300 None None None
                           init_session))).
    + vm_compute. discriminate.
    + reflexivity.
Defined.

(** ** What [search_places] does *)

Section SearchPlacesFacts.
Context (B : Backend).

(** [search_places] after its call to [search_reviews] has returned. *)
Lemma search_places_after_reviews (query : string)
    (top_k min_reviews : option Z) (aggregation : option string)
    (s s1 : Session) (rel : list ScoredReview) :
  search_reviews B query 300 s = (Ok rel, s1) ->
  search_places B query top_k min_reviews aggregation s =
    match rel with
    | [] => (Ok [], s1)
    | _ =>
      let capped := cap_per_place rel in
      match min_reviews_filter
              (or_default_Z min_reviews config.DEFAULT_MIN_REVIEWS)
              (aggregate capped) with
      | [] => (Ok [], cached capped s1)
      | ps =>
        match add_final_score
                (or_default_string aggregation config.DEFAULT_AGGREGATION)
                (or_default_string (_last_query_sentiment s1) "neutral")
                ps with
        | Raise e => (Raise e, cached capped s1)
        | Ok scored =>
            (Ok (join_and_clean B
                   (or_default_Z top_k config.DEFAULT_TOP_K) scored),
             cached capped s1)
        end
      end
    end.
Proof.
  intros Hrun. unfold search_places, bind. rewrite Hrun.
  destruct rel as [|r0 rel']; [reflexivity|].
  unfold set_last_relevant_reviews, get_session, ret, raise, cached.
  cbn [_last_query_sentiment].
  destruct (min_reviews_filter _ _) as [|p ps]; [reflexivity|].
  destruct (add_final_score _ _ _); reflexivity.
Qed.

Lemma drop_duplicates_from_In (seen : list (option string))
                              (l : list PlaceResult) (r : PlaceResult) :
  In r (drop_duplicates_from seen l) -> In r l.
Proof.
  revert seen; induction l as [|x t IH]; intros seen; simpl; [tauto|].
  destruct (existsb (name_eqb (pr_name x)) seen); simpl.
  - intros H; right; eapply IH, H.
  - intros [E|H]; [now left|right; eapply IH, H].
Qed.

Lemma merge_row_In (row : PlaceScores * R) (r : PlaceResult) :
  In r (merge_row B row) -> (pr_scores r, final_score r) = row.
Proof.
  unfold merge_row. destruct row as [p v]. cbn [fst snd].
  destruct (filter _ (places_df B)) as [|m ms].
  - intros [E|[]]. now subst r.
  - intros H. apply in_map_iff in H. destruct H as (pl & E & _).
    now subst r.
Qed.

(** Every row of the returned frame is one of the scored places. *)
Lemma join_and_clean_In (top_k : Z) (scored : list (PlaceScores * R))
                        (r : PlaceResult) :
  In r (join_and_clean B top_k scored) ->
  In (pr_scores r, final_score r) scored.
Proof.
  unfold join_and_clean. intros H.
  apply head_In in H. apply filter_In in H. destruct H as [H _].
  apply drop_duplicates_from_In in H.
  apply in_flat_map in H. destruct H as (row & Hrow & Hr).
  apply nlargest_In in Hrow. apply merge_row_In in Hr.
  now rewrite Hr.
Qed.

Lemma add_final_score_In (aggregation query_sentiment : string)
    (ps : list PlaceScores) (scored : list (PlaceScores * R))
    (p : PlaceScores) (v : R) :
  add_final_score aggregation query_sentiment ps = Ok scored ->
  In (p, v) scored ->
  In p ps
  /\ v = (if aggregation =? "mean" then Q2R (avg_score p)
          else if aggregation =? "max" then Q2R (max_score p)
          else weighted_score query_sentiment p).
Proof.
  unfold add_final_score.
  destruct (aggregation =? "mean"); [|destruct (aggregation =? "max");
    [|destruct (aggregation =? "weighted"); [|discriminate]]];
    intros E; inversion E; subst scored; clear E;
    intros H; apply in_map_iff in H; destruct H as (p' & E & Hp);
    inversion E; subst; auto.
Qed.

(** The rows a successful [search_places] returns come from the aggregation
    of the frame it cached. *)
Lemma search_places_inv (query : string) (top_k min_reviews : option Z)
    (aggregation : option string) (s s' : Session)
    (rows : list PlaceResult) (r : PlaceResult) :
  search_places B query top_k min_reviews aggregation s = (Ok rows, s') ->
  In r rows ->
  exists rel s1 scored,
    search_reviews B query 300 s = (Ok rel, s1)
    /\ s' = cached (cap_per_place rel) s1
    /\ add_final_score
         (or_default_string aggregation config.DEFAULT_AGGREGATION)
         (or_default_string (_last_query_sentiment s1) "neutral")
         (min_reviews_filter
            (or_default_Z min_reviews config.DEFAULT_MIN_REVIEWS)
            (aggregate (cap_per_place rel))) = Ok scored
    /\ rows = join_and_clean B (or_default_Z top_k config.DEFAULT_TOP_K)
                             scored.
Proof.
  intros Hrun Hr.
  destruct (search_reviews B query 300 s) as [[rel|e] s1] eqn:Hrev.
  - rewrite (search_places_after_reviews _ _ _ _ _ _ _ Hrev) in Hrun.
    destruct rel as [|r0 rel'].
    { inversion Hrun; subst. destruct Hr. }
    cbv zeta in Hrun.
    destruct (min_reviews_filter _ _) as [|p ps] eqn:Hps.
    { inversion Hrun; subst. destruct Hr. }
    destruct (add_final_score _ _ (p :: ps)) as [scored|e] eqn:Hsc;
      [|discriminate].
    inversion Hrun; subst.
    exists (r0 :: rel'), s1, scored.
    rewrite Hps. repeat split; auto.
  - unfold search_places, bind in Hrun. rewrite Hrev in Hrun. discriminate.
Qed.

End SearchPlacesFacts.

(** ** The weighted strategy *)

Lemma or_default_neutral_negative (q : string) :
  (or_default_string (Some q) "neutral" =? "negative") = (q =? "negative").
Proof.
  unfold or_default_string. destruct q as [|c t]; reflexivity.
Qed.

(** C3. Under the weighted strategy (named, or taken by default) every
    returned place has
    [final_score = avg_score * ln (1 + review_count) * sqrt ratio], the ratio
    being [(negative + 1) / (positive + neutral + 1)] when the stored query
    sentiment is negative and [(positive + 1) / (negative + 1)] otherwise. *)
Theorem C3_weighted_final_score (B : Backend) (query : string)
    (top_k min_reviews : option Z) (aggregation : option string)
    (s s' : Session) (rows : list PlaceResult) (r : PlaceResult)
    (query_sentiment : string) :
  or_default_string aggregation config.DEFAULT_AGGREGATION = "weighted" ->
  search_places B query top_k min_reviews aggregation s = (Ok rows, s') ->
  In r rows ->
  _last_query_sentiment s' = Some query_sentiment ->
  final_score r =
    (Q2R (avg_score (pr_scores r))
     * ln (1 + INR (review_count (pr_scores r)))
     * sqrt (if query_sentiment =? "negative"
             then (INR (negative_reviews (pr_scores r)) + 1)
                  / (INR (positive_reviews (pr_scores r))
                     + INR (neutral_reviews (pr_scores r)) + 1)
             else (INR (positive_reviews (pr_scores r)) + 1)
                  / (INR (negative_reviews (pr_scores r)) + 1)))%R.
Proof.
  intros Hagg Hrun Hr Hqs.
  destruct (search_places_inv B _ _ _ _ _ _ _ _ Hrun Hr)
    as (rel & s1 & scored & Hrev & Hs' & Hsc & Hrows).
  subst rows s'. cbn [cached _last_query_sentiment] in Hqs.
  rewrite Hagg, Hqs in Hsc.
  apply join_and_clean_In in Hr.
  destruct (add_final_score_In _ _ _ _ _ _ Hsc Hr) as [_ Hv].
  cbn [String.eqb Ascii.eqb Bool.eqb] in Hv.
  rewrite Hv. unfold weighted_score, sentiment_ratio.
  rewrite or_default_neutral_negative.
  destruct (query_sentiment =? "negative");
    rewrite !plus_INR; reflexivity.
Qed.

Lemma C3_weighted_final_score_witness :
  let run := search_places Fake.two_reviews "- awful service" None
                           (Some 1%Z) None init_session in
  let p := mkPlaceScores 7 (1.800 / 1) 1.800 1 (1.800 + 0) 0 1 0 in
  let r := mkPlaceResult (Some "Cafe") None None None
                         (weighted_score "negative" p) p in
  run = (Ok [r], snd run)
  /\ final_score r =
       (Q2R (avg_score p)
        * ln (1 + INR 1)
        * sqrt ((INR 1 + 1) / (INR 0 + INR 0 + 1)))%R.
Proof.
  intros run p r.
  assert (E : run = (Ok [r], snd run))
    by (lazy -[weighted_score]; reflexivity).
  split; [exact E|].
  exact (C3_weighted_final_score Fake.two_reviews "- awful service" None
           (Some 1%Z) None init_session (snd run) [r] r "negative"
           eq_refl E (or_introl eq_refl) eq_refl).
Defined.

(** ** Sign of the scores *)

(** C4, as stated, fails before the threshold filter: a candidate with a
    negative similarity gets a negative [final_review_score], the positive
    multipliers do not change the sign. *)
Lemma C4_negative_score_counterexample :
  exists r,
    In r (scored_candidates Fake.opposite "neutral"
            [(mkReview (Some "a table by the window, open late")
                       (Some 3%Z), 3%Z, (-0.5)%Q)])
    /\ (-1 <= similarity_score r <= 1)%Q
    /\ (0 < sentiment_weight r)%Q
    /\ (0 < sentiment_alignment r)%Q
    /\ (final_review_score r < 0)%Q.
Proof.
  eexists. split; [left; reflexivity|].
  repeat split; vm_compute; congruence.
Qed.

Lemma min_score_pos (query_sentiment : string) :
  (0 < min_score query_sentiment)%Q.
Proof.
  unfold min_score. destruct (query_sentiment =? "negative"); reflexivity.
Qed.

Lemma threshold_filter_pos (query_sentiment : string)
    (rows : list ScoredReview) (r : ScoredReview) :
  In r (threshold_filter query_sentiment rows) ->
  (min_score query_sentiment < final_review_score r)%Q.
Proof.
  unfold threshold_filter, above_min_score. intros H.
  apply filter_In in H. destruct H as [_ H]. now apply Qltb_lt.
Qed.

Lemma cap_per_place_In (rows : list ScoredReview) (r : ScoredReview) :
  In r (cap_per_place rows) -> In r rows.
Proof.
  unfold cap_per_place. intros H.
  apply group_head_In in H. now apply sort_desc_In in H.
Qed.

Lemma aggregate_In (rows : list ScoredReview) (p : PlaceScores) :
  In p (aggregate rows) ->
  p = aggregate_place rows (ps_place_firm_id p)
  /\ exists r, In r rows /\ sr_place_firm_id r = ps_place_firm_id p.
Proof.
  unfold aggregate. intros H. apply in_map_iff in H.
  destruct H as (k & E & Hk). subst p. cbn [aggregate_place ps_place_firm_id].
  split; [reflexivity|]. now apply group_keys_In in Hk.
Qed.

Lemma aggregate_place_nonneg (rows : list ScoredReview) (k : Z) :
  (forall r, In r rows -> 0 < final_review_score r)%Q ->
  (0 <= avg_score (aggregate_place rows k))%Q
  /\ (0 <= max_score (aggregate_place rows k))%Q.
Proof.
  intros Hpos. unfold aggregate_place. cbn [avg_score max_score].
  assert (Hg : Forall (fun x => 0 < x)%Q
                 (map final_review_score
                      (group_rows sr_place_firm_id k rows))).
  { apply Forall_forall. intros x Hx. apply in_map_iff in Hx.
    destruct Hx as (r & <- & Hr). apply Hpos.
    now apply group_rows_In in Hr. }
  split.
  - unfold Qdiv. apply Qmult_le_0_compat; [now apply Qsum_pos|].
    apply Qinv_le_0_compat. unfold Qle; simpl. lia.
  - destruct (map final_review_score _) as [|x t]; [apply Qle_refl|].
    inversion Hg; subst.
    eapply Qle_trans; [apply Qlt_le_weak; eassumption|apply Qmax_list_ge].
Qed.

Lemma Q2R_nonneg (x : Q) : (0 <= x)%Q -> (0 <= Q2R x)%R.
Proof.
  intros H. apply Qle_Rle in H. now rewrite RMicromega.Q2R_0 in H.
Qed.

Lemma ln_1_plus_nonneg (n : nat) : (0 <= ln (1 + INR n))%R.
Proof.
  pose proof (pos_INR n) as Hn.
  destruct (Req_dec (INR n) 0) as [E|NE].
  - rewrite E, Rplus_0_r, ln_1. apply Rle_refl.
  - rewrite <- ln_1. apply Rlt_le, ln_increasing; lra.
Qed.

Lemma weighted_score_nonneg (query_sentiment : string) (p : PlaceScores) :
  (0 <= avg_score p)%Q -> (0 <= weighted_score query_sentiment p)%R.
Proof.
  intros H. unfold weighted_score.
  apply Rmult_le_pos; [apply Rmult_le_pos|].
  - now apply Q2R_nonneg.
  - apply ln_1_plus_nonneg.
  - apply sqrt_pos.
Qed.

(** C4, amended. Every row [search_reviews] returns has a
    [final_review_score] above the (positive) bar of the threshold filter,
    hence positive, and every row [search_places] returns has a
    [final_score >= 0], under each of the three strategies. *)
Theorem C4_returned_scores_nonnegative (B : Backend) (query : string)
    (k : Z) (top_k min_reviews : option Z) (aggregation : option string)
    (s : Session) :
  (forall rel s',
     search_reviews B query k s = (Ok rel, s') ->
     forall r, In r rel ->
       exists query_sentiment,
         _last_query_sentiment s' = Some query_sentiment
         /\ (0 < min_score query_sentiment < final_review_score r)%Q)
  /\ (forall rows s',
        search_places B query top_k min_reviews aggregation s = (Ok rows, s')
        -> forall r, In r rows -> (0 <= final_score r)%R).
Proof.
  split.
  - intros rel s' Hrun r Hr.
    destruct (search_reviews_inv B _ _ _ _ _ Hrun) as (_ & Hqs & _ & Hin).
    exists (query_label B query). split; [exact Hqs|].
    split; [apply min_score_pos|].
    eapply threshold_filter_pos, Hin, Hr.
  - intros rows s' Hrun r Hr.
    destruct (search_places_inv B _ _ _ _ _ _ _ _ Hrun Hr)
      as (rel & s1 & scored & Hrev & _ & Hsc & Hrows).
    subst rows. apply join_and_clean_In in Hr.
    destruct (add_final_score_In _ _ _ _ _ _ Hsc Hr) as [Hp Hv].
    apply filter_In in Hp. destruct Hp as [Hp _].
    apply aggregate_In in Hp. destruct Hp as [Hp _].
    destruct (search_reviews_inv B _ _ _ _ _ Hrev) as (_ & _ & _ & Hin).
    assert (Hpos : forall x, In x (cap_per_place rel) ->
                             (0 < final_review_score x)%Q).
    { intros x Hx. apply cap_per_place_In in Hx.
      eapply Qlt_trans; [apply min_score_pos|].
      eapply threshold_filter_pos, Hin, Hx. }
    destruct (aggregate_place_nonneg _ (ps_place_firm_id (pr_scores r)) Hpos)
      as [Havg Hmax].
    rewrite <- Hp in Havg, Hmax. rewrite Hv.
    destruct (_ =? "mean"); [now apply Q2R_nonneg|].
    destruct (_ =? "max"); [now apply Q2R_nonneg|].
    now apply weighted_score_nonneg.
Qed.

(** ** Unknown aggregation names *)

(** C5, as stated, fails: with the unknown name ["median"] and a place that
    does not reach the default minimum of three reviews, [search_places]
    scores the reviews, writes the cache and returns the empty frame instead
    of raising. *)
Lemma C5_unknown_aggregation_counterexample :
  exists s',
    search_places Fake.two_reviews "- awful service" None None
                  (Some "median") init_session = (Ok [], s')
    /\ _last_relevant_reviews s' <> None
    /\ index_searches s' <> [].
Proof.
  eexists. split; [lazy; reflexivity|].
  split; discriminate.
Qed.

Lemma add_final_score_unknown (aggregation query_sentiment : string)
    (ps : list PlaceScores) :
  aggregation <> "mean" -> aggregation <> "max" ->
  aggregation <> "weighted" ->
  add_final_score aggregation query_sentiment ps
    = Raise (InvalidAggregation aggregation).
Proof.
  intros H1 H2 H3. unfold add_final_score.
  apply String.eqb_neq in H1, H2, H3. now rewrite H1, H2, H3.
Qed.

(** C5, amended. For a non-empty name other than [mean], [max] and
    [weighted], [search_places] never ranks places under some default
    strategy: its outcome is [InvalidQuery], the empty frame or
    [InvalidAggregation].  It raises [InvalidAggregation] whenever the query
    is accepted and at least one place passes the minimum-review filter, and
    it does so at the strategy dispatch, after the reviews were scored and
    the cache written. *)
Theorem C5_unknown_aggregation (B : Backend) (query : string)
    (top_k min_reviews : option Z) (aggregation : string) (s : Session) :
  aggregation <> EmptyString -> aggregation <> "mean" -> aggregation <> "max" ->
  aggregation <> "weighted" ->
  let out := search_places B query top_k min_reviews (Some aggregation) s in
  (fst out = Raise InvalidQuery
   \/ fst out = Ok []
   \/ fst out = Raise (InvalidAggregation aggregation))
  /\ (forall rel s1,
        search_reviews B query 300 s = (Ok rel, s1) ->
        min_reviews_filter
          (or_default_Z min_reviews config.DEFAULT_MIN_REVIEWS)
          (aggregate (cap_per_place rel)) <> [] ->
        out = (Raise (InvalidAggregation aggregation),
               cached (cap_per_place rel) s1)).
Proof.
  intros H0 H1 H2 H3 out.
  assert (Hname : or_default_string (Some aggregation)
                    config.DEFAULT_AGGREGATION = aggregation).
  { destruct aggregation; [congruence|reflexivity]. }
  assert (Hafter : forall rel s1,
            search_reviews B query 300 s = (Ok rel, s1) ->
            out = match rel with
                  | [] => (Ok [], s1)
                  | _ =>
                    match min_reviews_filter
                            (or_default_Z min_reviews
                               config.DEFAULT_MIN_REVIEWS)
                            (aggregate (cap_per_place rel)) with
                    | [] => (Ok [], cached (cap_per_place rel) s1)
                    | _ => (Raise (InvalidAggregation aggregation),
                            cached (cap_per_place rel) s1)
                    end
                  end).
  { intros rel s1 Hrev. unfold out.
    rewrite (search_places_after_reviews B _ _ _ _ _ _ _ Hrev).
    destruct rel as [|r0 rel']; [reflexivity|]. cbv zeta.
    destruct (min_reviews_filter _ _) as [|p ps]; [reflexivity|].
    now rewrite Hname, add_final_score_unknown. }
  split.
  - destruct (search_reviews B query 300 s) as [[rel|e] s1] eqn:Hrev.
    + rewrite (Hafter _ _ eq_refl).
      destruct rel as [|r0 rel']; [auto|].
      destruct (min_reviews_filter _ _); auto.
    + left. unfold out, search_places, bind. rewrite Hrev.
      destruct (Nat.eq_dec (String.length (normalize_text B query)) 0)
        as [E|NE].
      * rewrite (search_reviews_empty_query B _ _ _ E) in Hrev.
        now inversion Hrev.
      * destruct (search_reviews_accepted B query 300 s NE)
          as (rel & extra & Hrun & _).
        rewrite Hrun in Hrev. discriminate.
  - intros rel s1 Hrev Hps. rewrite (Hafter _ _ Hrev).
    destruct rel as [|r0 rel']; [now destruct Hps|].
    destruct (min_reviews_filter _ _); [now destruct Hps|reflexivity].
Qed.

Lemma C5_unknown_aggregation_witness :
  fst (search_places Fake.two_reviews "- awful service" None (Some 1%Z)
                     (Some "median") init_session)
  = Raise (InvalidAggregation "median").
Proof.
  pose (run := search_reviews Fake.two_reviews "- awful service" 300
                              init_session).
  assert (E : run = (Ok (match fst run with Ok rel => rel | _ => [] end),
                     snd run)) by (lazy; reflexivity).
  rewrite (proj2 (C5_unknown_aggregation Fake.two_reviews "- awful service"
                    None (Some 1%Z) "median" init_session
                    ltac:(discriminate) ltac:(discriminate)
                    ltac:(discriminate) ltac:(discriminate))
                 _ _ E ltac:(lazy; discriminate)).
  reflexivity.
Defined.

(** ** The per-place cap *)

Lemma filter_perm {A} (f : A -> bool) (l l' : list A) :
  Permutation l l' -> Permutation (filter f l) (filter f l').
Proof.
  induction 1 as [|x l l' H IH|x y l|l l' l'' H1 IH1 H2 IH2]; simpl.
  - constructor.
  - destruct (f x); [now constructor|exact IH].
  - destruct (f x), (f y); try apply Permutation_refl. apply perm_swap.
  - eapply Permutation_trans; eassumption.
Qed.

Lemma group_rows_sort_length (k : Z) (rows : list ScoredReview) :
  List.length (group_rows sr_place_firm_id k (sort_desc review_ltb rows))
  = List.length (group_rows sr_place_firm_id k rows).
Proof.
  apply Permutation_length, filter_perm, Permutation_sym, sort_desc_perm.
Qed.

Lemma cap_per_place_group (k : Z) (rows : list ScoredReview) :
  group_rows sr_place_firm_id k (cap_per_place rows)
  = firstn 15 (group_rows sr_place_firm_id k (sort_desc review_ltb rows)).
Proof. apply group_rows_group_head. Qed.

(** The cap does not depend on how the sort orders equal scores: from any
    descending arrangement of the frame, a place keeps [min 15 n] of its [n]
    reviews and each kept review scores at least as much as each dropped
    one. *)
Lemma cap_of_any_descending_order (rel sorted : list ScoredReview) (k : Z) :
  Permutation sorted rel ->
  StronglySorted score_ge sorted ->
  let kept := group_rows sr_place_firm_id k
                (group_head sr_place_firm_id 15 sorted) in
  List.length kept
    = Nat.min 15 (List.length (group_rows sr_place_firm_id k rel))
  /\ (forall x y,
        In x kept ->
        In y (skipn 15 (group_rows sr_place_firm_id k sorted)) ->
        score_ge x y).
Proof.
  intros Hperm Hsorted kept. unfold kept.
  rewrite group_rows_group_head. split.
  - rewrite length_firstn. f_equal.
    now apply Permutation_length, filter_perm.
  - intros x y Hx Hy.
    eapply StronglySorted_firstn_skipn; [|eassumption|eassumption].
    now apply StronglySorted_filter.
Qed.

(** C6. After the cap each place keeps at most 15 scored reviews, namely the
    first 15 of its reviews in descending score order, so that every kept
    review scores at least as much as every dropped one; and the
    [review_count] of every returned place is the number of reviews of that
    place in the capped frame (the one that is cached), which is the raw
    count of the place cut down to 15. *)
Theorem C6_per_place_cap :
  (forall (rel : list ScoredReview) (k : Z),
     let sorted := group_rows sr_place_firm_id k (sort_desc review_ltb rel) in
     let kept := group_rows sr_place_firm_id k (cap_per_place rel) in
     (List.length kept <= 15)%nat
     /\ kept = firstn 15 sorted
     /\ Permutation sorted (group_rows sr_place_firm_id k rel)
     /\ StronglySorted score_ge kept
     /\ (forall x y, In x kept -> In y (skipn 15 sorted) -> score_ge x y))
  /\ (forall (B : Backend) (query : string) (top_k min_reviews : option Z)
             (aggregation : option string) (s s' : Session)
             (rows : list PlaceResult) (r : PlaceResult),
        search_places B query top_k min_reviews aggregation s = (Ok rows, s')
        -> In r rows ->
        exists rel s1,
          search_reviews B query 300 s = (Ok rel, s1)
          /\ _last_relevant_reviews s' = Some (cap_per_place rel)
          /\ review_count (pr_scores r) =
               List.length
                 (group_rows sr_place_firm_id
                    (ps_place_firm_id (pr_scores r)) (cap_per_place rel))
          /\ review_count (pr_scores r) =
               Nat.min 15
                 (List.length
                    (group_rows sr_place_firm_id
                       (ps_place_firm_id (pr_scores r)) rel))).
Proof.
  split.
  - intros rel k sorted kept.
    assert (Hkept : kept = firstn 15 sorted) by apply cap_per_place_group.
    assert (Hsorted : StronglySorted score_ge sorted)
      by apply StronglySorted_filter, sort_desc_sorted.
    split; [rewrite Hkept, length_firstn; lia|].
    split; [exact Hkept|].
    split; [apply filter_perm, Permutation_sym, sort_desc_perm|].
    split; [rewrite Hkept; now apply StronglySorted_firstn|].
    intros x y Hx Hy. rewrite Hkept in Hx.
    eapply StronglySorted_firstn_skipn; eassumption.
  - intros B query top_k min_reviews aggregation s s' rows r Hrun Hr.
    destruct (search_places_inv B _ _ _ _ _ _ _ _ Hrun Hr)
      as (rel & s1 & scored & Hrev & Hs' & Hsc & Hrows).
    exists rel, s1. subst rows s'.
    split; [exact Hrev|]. split; [reflexivity|].
    apply join_and_clean_In in Hr.
    destruct (add_final_score_In _ _ _ _ _ _ Hsc Hr) as [Hp _].
    apply filter_In in Hp. destruct Hp as [Hp _].
    apply aggregate_In in Hp. destruct Hp as [Hp _].
    assert (Hcount : review_count (pr_scores r) =
                     List.length
                       (group_rows sr_place_firm_id
                          (ps_place_firm_id (pr_scores r))
                          (cap_per_place rel))).
    { rewrite Hp at 1. reflexivity. }
    split; [exact Hcount|].
    rewrite Hcount, cap_per_place_group, length_firstn.
    now rewrite group_rows_sort_length.
Qed.

(** A place with sixteen qualifying reviews is ranked with a [review_count]
    of 15. *)
Example crowded_place_review_count :
  exists rel s1 r s',
    search_reviews Fake.crowded "quiet canteen" 300 init_session
      = (Ok rel, s1)
    /\ List.length (group_rows sr_place_firm_id 5 rel) = 16%nat
    /\ search_places Fake.crowded "quiet canteen" None None (Some "mean")
                     init_session = (Ok [r], s')
    /\ ps_place_firm_id (pr_scores r) = 5%Z
    /\ review_count (pr_scores r) = 15%nat.
Proof.
  eexists _, _, _, _.
  split; [lazy; reflexivity|].
  split; [reflexivity|].
  split; [lazy -[Q2R]; reflexivity|].
  split; reflexivity.
Qed.

(** ** The session cache *)

(** C8, as stated, fails.  Starting from the session a first query left, a
    call with a blank query raises and overwrites nothing; and a call that
    finds no review above the bar succeeds with the empty frame, stores the
    new query sentiment, and leaves the scored reviews of the first query in
    place. *)
Lemma C8_session_cache_counterexample :
  let s1 := snd (search_places Fake.one_negative "- awful service" None
                               (Some 1%Z) None init_session) in
  _last_relevant_reviews s1 <> None
  /\ _last_query_sentiment s1 = Some "negative"
  /\ search_places Fake.one_negative "   " None (Some 1%Z) None s1
     = (Raise InvalidQuery, s1)
  /\ exists s2,
       search_places Fake.one_negative "+ lovely coffee" None (Some 1%Z)
                     None s1 = (Ok [], s2)
       /\ _last_query_sentiment s2 = Some "positive"
       /\ _last_relevant_reviews s2 = _last_relevant_reviews s1.
Proof.
  intros s1.
  split; [lazy -[weighted_score]; discriminate|].
  split; [reflexivity|].
  split; [lazy -[weighted_score]; reflexivity|].
  eexists. split; [lazy -[weighted_score]; reflexivity|].
  split; reflexivity.
Qed.

(** C8, amended. A [search_places] call whose query normalises to the empty
    string leaves the session as it was.  A call whose query is accepted
    stores the query's sentiment label; when its scored-review frame is not
    empty it also stores that frame, capped per place, and this is the state
    the call ends in whatever happens after the cap (a ranking, the empty
    frame or [InvalidAggregation]).  [get_place_highlights] and
    [get_place_sentiment_stats] leave the session as it was. *)
Theorem C8_session_cache (B : Backend) (query : string)
    (top_k min_reviews : option Z) (aggregation : option string)
    (s : Session) :
  let s' := snd (search_places B query top_k min_reviews aggregation s) in
  (String.length (normalize_text B query) = 0%nat -> s' = s)
  /\ (String.length (normalize_text B query) <> 0%nat ->
        _last_query_sentiment s' = Some (query_label B query))
  /\ (forall rel s1,
        search_reviews B query 300 s = (Ok rel, s1) -> rel <> [] ->
        s' = cached (cap_per_place rel) s1
        /\ _last_relevant_reviews s' = Some (cap_per_place rel)
        /\ _last_query_sentiment s' = Some (query_label B query))
  /\ (forall id k, snd (get_place_highlights B id k s) = s)
  /\ (forall id, snd (get_place_sentiment_stats id s) = s).
Proof.
  intros s'.
  assert (Hafter : forall rel s1,
            search_reviews B query 300 s = (Ok rel, s1) ->
            s' = match rel with
                 | [] => s1
                 | _ => cached (cap_per_place rel) s1
                 end).
  { intros rel s1 Hrev. unfold s'.
    rewrite (search_places_after_reviews B _ _ _ _ _ _ _ Hrev).
    destruct rel as [|r0 rel']; [reflexivity|]. cbv zeta.
    destruct (min_reviews_filter _ _) as [|p ps]; [reflexivity|].
    destruct (add_final_score _ _ _); reflexivity. }
  split; [|split; [|split; [|split]]].
  - intros E. unfold s', search_places, bind.
    now rewrite search_reviews_empty_query.
  - intros NE.
    destruct (search_reviews_accepted B query 300 s NE)
      as (rel & extra & Hrun & _).
    rewrite (Hafter _ _ Hrun). destruct rel; reflexivity.
  - intros rel s1 Hrev Hrel.
    destruct (search_reviews_inv B _ _ _ _ _ Hrev) as (_ & Hqs & _).
    rewrite (Hafter _ _ Hrev).
    destruct rel as [|r0 rel']; [congruence|].
    repeat split. exact Hqs.
  - reflexivity.
  - intros id. unfold get_place_sentiment_stats, bind, get_session.
    destruct (_last_relevant_reviews s); reflexivity.
Qed.

(** ** Highlights *)

(** C9, as stated, fails: after a successful search that returns place 7,
    whose only cached review has a text of eighteen characters,
    [get_place_highlights] returns no text for that place although [top_k]
    is 3 and the place has a cached review. *)
Lemma C9_highlights_counterexample :
  exists r last s',
    search_places Fake.terse "- awful service" None (Some 1%Z) None
                  init_session = (Ok [r], s')
    /\ ps_place_firm_id (pr_scores r) = 7%Z
    /\ _last_relevant_reviews s' = Some last
    /\ List.length (group_rows sr_place_firm_id 7 last) = 1%nat
    /\ fst (get_place_highlights Fake.terse 7 3 s') = Ok [].
Proof.
  eexists _, _, _.
  split; [lazy -[weighted_score]; reflexivity|].
  repeat split.
Qed.

Lemma highlights_of_filter (B : Backend) (rows : list ScoredReview) :
  highlights_of B rows = map (marked_text B) (filter has_long_text rows).
Proof.
  induction rows as [|r t IH]; simpl; [reflexivity|].
  unfold highlight, has_long_text.
  destruct (sr_text r) as [txt|] eqn:E; [|exact IH].
  destruct (20 <? Text.length (Text.strip txt))%nat; simpl; [|exact IH].
  unfold marked_text at 1. rewrite E. f_equal. exact IH.
Qed.

(** C9, amended. [get_place_highlights] takes the [top_k] highest-scoring
    cached reviews of the place, in descending score order, skips those
    whose text is missing or has at most 20 characters once stripped, and
    returns for each of the others its normalised text behind the sentiment
    marker; so it can return fewer than [top_k] texts.  It returns nothing
    when the cache is unset or holds no review of the place. *)
Theorem C9_highlights (B : Backend) (id top_k : Z) (s : Session) :
  (_last_relevant_reviews s = None ->
     fst (get_place_highlights B id top_k s) = Ok [])
  /\ (forall last,
        _last_relevant_reviews s = Some last ->
        let place_reviews := group_rows sr_place_firm_id id last in
        let sorted := sort_desc review_ltb place_reviews in
        let top := firstn (Z.to_nat top_k) sorted in
        (place_reviews = [] ->
           fst (get_place_highlights B id top_k s) = Ok [])
        /\ fst (get_place_highlights B id top_k s)
           = Ok (map (marked_text B) (filter has_long_text top))
        /\ Permutation sorted place_reviews
        /\ StronglySorted score_ge (filter has_long_text top)
        /\ (forall r, In r top -> In r last /\ sr_place_firm_id r = id)
        /\ (forall x y, In x top -> In y (skipn (Z.to_nat top_k) sorted) ->
              score_ge x y)).
Proof.
  split.
  - intros E.
    unfold get_place_highlights, bind, get_session, ret, top_reviews.
    cbn [fst]. now rewrite E.
  - intros last E place_reviews sorted top.
    assert (Hsorted : StronglySorted score_ge sorted)
      by apply sort_desc_sorted.
    assert (Hout : fst (get_place_highlights B id top_k s)
                   = Ok (map (marked_text B) (filter has_long_text top))).
    { unfold get_place_highlights, bind, get_session, ret, top_reviews.
      cbn [fst]. rewrite E, <- highlights_of_filter. do 2 f_equal.
      unfold top, sorted, place_reviews, nlargest.
      destruct last as [|r0 last']; [now rewrite firstn_nil|].
      destruct (group_rows sr_place_firm_id id (r0 :: last'));
        [now rewrite firstn_nil|reflexivity]. }
    split; [|split; [|split; [|split; [|split]]]].
    + intros Hnone. rewrite Hout. unfold top, sorted. rewrite Hnone.
      now rewrite firstn_nil.
    + exact Hout.
    + apply Permutation_sym, sort_desc_perm.
    + now apply StronglySorted_filter, StronglySorted_firstn.
    + intros r Hr. apply firstn_In in Hr. apply sort_desc_In in Hr.
      now apply group_rows_In in Hr.
    + intros x y Hx Hy. eapply StronglySorted_firstn_skipn; eassumption.
Qed.

(** The highlights of the worked scenario: the one negative review, marked. *)
Example highlights_after_search :
  let s' := snd (search_places Fake.two_reviews "- awful service" None
                               (Some 1%Z) None init_session) in
  fst (get_place_highlights Fake.two_reviews 7 3 s')
    = Ok ["[-] - the service was terribly slow"]
  /\ fst (get_place_highlights Fake.two_reviews 8 3 s') = Ok []
  /\ fst (get_place_highlights Fake.two_reviews 7 3 init_session) = Ok [].
Proof. repeat split. Qed.

(** The length guard counts characters, not bytes, and strips the white
    space of Unicode: a review of eleven Cyrillic letters between two
    no-break spaces is skipped, one of twenty-three characters is kept. *)
Example highlight_guard_counts_characters :
  let row t := mkScored (Some t) 7 0.9 "positive" 0.9 1.2 1.0 1.08 in
  let short := (no_break_space ++ "великолепно" ++ no_break_space)%string in
  String.length short = 26%nat
  /\ Text.length short = 13%nat
  /\ Text.strip short = "великолепно"
  /\ Text.length (Text.strip short) = 11%nat
  /\ has_long_text (row short) = false
  /\ highlight Fake.two_reviews (row short) = None
  /\ Text.length "очень вкусно и недорого" = 23%nat
  /\ has_long_text (row "очень вкусно и недорого") = true.
Proof. repeat split. Qed.

(** ** Falsy arguments *)

Lemma Rltb_irrefl (x : R) : Rltb x x = false.
Proof.
  unfold Rltb. destruct (Rlt_dec x x) as [H|H]; [|reflexivity].
  now apply Rlt_irrefl in H.
Qed.

(** When all places have the same [final_score] the ranking keeps them in
    the order of the aggregation. *)
Lemma join_and_clean_ties (B : Backend) (top_k : Z)
                          (scored : list (PlaceScores * R)) (v : R) :
  Forall (fun x => snd x = v) scored ->
  join_and_clean B top_k scored =
  head top_k
    (filter has_name
       (drop_duplicates_from []
          (flat_map (merge_row B)
                    (firstn (Z.to_nat (top_k * 2)) scored)))).
Proof.
  intros H. unfold join_and_clean, nlargest.
  rewrite sort_desc_ties; [reflexivity|].
  intros x y Hx Hy. rewrite Forall_forall in H. unfold place_ltb.
  rewrite (H x Hx), (H y Hy). apply Rltb_irrefl.
Qed.

Lemma join_and_clean_length (B : Backend) (top_k : Z)
                            (scored : list (PlaceScores * R)) :
  (0 <= top_k)%Z ->
  (List.length (join_and_clean B top_k scored) <= Z.to_nat top_k)%nat.
Proof. intros H. unfold join_and_clean. now apply head_length. Qed.


(** With twelve qualifying places a call with [top_k = 0] returns ten. *)
Example top_k_zero_returns_ten_places :
  exists rows s',
    search_places Fake.twelve_places "quiet place" (Some 0%Z) (Some 1%Z)
                  None init_session = (Ok rows, s')
    /\ List.length rows = 10%nat.
Proof.
  eexists _, _. split.
  - erewrite search_places_after_reviews by (lazy; reflexivity).
    lazy -[join_and_clean weighted_score]. reflexivity.
  - erewrite join_and_clean_ties.
    + lazy -[weighted_score]. reflexivity.
    + repeat constructor.
Qed.

(** With [min_reviews = 0] a place with a single qualifying review is
    dropped, as with [min_reviews = 3]; with [min_reviews = 1] it is
    ranked. *)
Example min_reviews_zero_filters_as_three :
  fst (search_places Fake.two_reviews "- awful service" None (Some 0%Z)
                     None init_session) = Ok []
  /\ exists r,
       fst (search_places Fake.two_reviews "- awful service" None
                          (Some 1%Z) None init_session) = Ok [r].
Proof.
  split; [reflexivity|].
  eexists. lazy -[weighted_score]. reflexivity.
Qed.

(** * Further properties of the search methods *)

From Stdlib Require Lqa.

(** The run used to instantiate the statements below. *)
Lemma two_reviews_run :
  let run := search_places Fake.two_reviews "- awful service" None
                           (Some 1%Z) None init_session in
  run = (Ok [cafe_row], snd run).
Proof. lazy -[weighted_score]. reflexivity. Qed.

(** ** The frame [search_reviews] returns *)

Section SearchReviewsResult.
Context (B : Backend).

(** The frame of an accepted query, whichever [return] produced it: the
    early returns give the empty frame, and so does the last expression on
    the frames that lead to them. *)
Lemma search_reviews_result (query : string) (top_k : Z) (s : Session) :
  String.length (normalize_text B query) <> 0%nat ->
  fst (search_reviews B query top_k s) =
    Ok (nlargest review_ltb top_k
          (threshold_filter (query_label B query)
             (scored_candidates B (query_label B query)
                (with_place (valid_rows B (query_hits B query top_k)))))).
Proof.
  intros H. unfold search_reviews.
  destruct (Nat.eqb_spec (String.length (normalize_text B query)) 0);
    [contradiction|].
  unfold _get_query_sentiment, set_last_query_sentiment, log, bind, ret.
  cbn [fst].
  fold (query_label B query). fold (query_hits B query top_k).
  assert (Hnil : nlargest review_ltb top_k [] = [])
    by (unfold nlargest; cbn [sort_desc fold_right]; apply firstn_nil).
  destruct (valid_rows B (query_hits B query top_k)) as [|v vs].
  { cbn [fst with_place flat_map scored_candidates map threshold_filter
         filter]. now rewrite Hnil. }
  destruct (with_place (v :: vs)) as [|w ws].
  { cbn [fst scored_candidates map threshold_filter filter].
    now rewrite Hnil. }
  destruct (threshold_filter _ _) as [|t ts]; cbn [fst];
    [now rewrite Hnil|reflexivity].
Qed.

Lemma iloc_In (i : Z) (rv : Review) :
  iloc B i = Some rv -> In rv (reviews_df B).
Proof.
  unfold iloc. destruct (_ <? 0)%Z; [discriminate|]. apply nth_error_In.
Qed.

Lemma valid_rows_In (hits : list (Z * Q)) (rv : Review) (d : Q) :
  In (rv, d) (valid_rows B hits) <->
  exists i, In (i, d) hits
            /\ (i < Z.of_nat (List.length (reviews_df B)))%Z
            /\ iloc B i = Some rv.
Proof.
  unfold valid_rows. rewrite in_flat_map. split.
  - intros ([i d'] & Hh & Hin). apply filter_In in Hh.
    destruct Hh as [Hh Hlt]. cbn [fst snd] in Hin, Hlt.
    apply Z.ltb_lt in Hlt.
    destruct (iloc B i) as [rv'|] eqn:E; [|destruct Hin].
    destruct Hin as [Heq|[]]. inversion Heq; subst. now exists i.
  - intros (i & Hh & Hlt & Hn). exists (i, d). split.
    + apply filter_In. split; [exact Hh|]. cbn [fst].
      now apply Z.ltb_lt.
    + cbn [fst snd]. rewrite Hn. now left.
Qed.

Lemma with_place_In (rows : list (Review * Q)) (rv : Review) (p : Z)
                    (d : Q) :
  In (rv, p, d) (with_place rows) <->
  In (rv, d) rows /\ place_firm_id rv = Some p.
Proof.
  unfold with_place. rewrite in_flat_map. split.
  - intros ([rv' d'] & Hin & Hp). cbn [fst snd] in Hp.
    destruct (place_firm_id rv') as [p'|] eqn:E; [|destruct Hp].
    destruct Hp as [Heq|[]]. inversion Heq; subst. auto.
  - intros [Hin Hp]. exists (rv, d). split; [exact Hin|].
    cbn [fst snd]. rewrite Hp. now left.
Qed.

End SearchReviewsResult.

(** The label of a returned row is an answer of the sentiment model. *)
Lemma returned_label_is_model_answer (B : Backend)
    (query : string) (top_k : Z) (s s' : Session)
    (rel : list ScoredReview) (r : ScoredReview) :
  search_reviews B query top_k s = (Ok rel, s') ->
  In r rel ->
  exists t, sentiment_label r = Text.lower (fst (sentiment_model B t)).
Proof.
  intros Hrun Hr.
  destruct (search_reviews_inv B _ _ _ _ _ Hrun) as (_ & _ & _ & Hin).
  apply Hin in Hr. apply filter_In in Hr. destruct Hr as [Hr _].
  unfold scored_candidates in Hr. apply in_map_iff in Hr.
  destruct Hr as ([[rv p] d] & Hr & _). subst r.
  now exists (model_text (text rv)).
Qed.

(** X1. When the index is asked for a positive number of candidates, the
    frame [search_reviews] returns is in descending order of
    [final_review_score] and has at most [top_k] rows. *)
Theorem search_reviews_sorted_and_bounded (B : Backend) (query : string)
    (top_k : Z) (s s' : Session) (rel : list ScoredReview) :
  (0 < Z.min (top_k * 5) (index_ntotal B))%Z ->
  search_reviews B query top_k s = (Ok rel, s') ->
  StronglySorted score_ge rel
  /\ (List.length rel <= Z.to_nat top_k)%nat.
Proof.
  intros _ Hrun.
  destruct (search_reviews_inv B _ _ _ _ _ Hrun) as (NE & _).
  pose proof (search_reviews_result B query top_k s NE) as Hres.
  rewrite Hrun in Hres. cbn [fst] in Hres. inversion Hres as [Hrel].
  unfold nlargest. split.
  - apply StronglySorted_firstn, sort_desc_sorted.
  - rewrite length_firstn. lia.
Qed.

Lemma search_reviews_sorted_and_bounded_witness :
  exists rel s',
    search_reviews Fake.two_reviews "quiet cafe" 2 init_session = (Ok rel, s')
    /\ map sr_text rel = [ Some "+ the coffee was really lovely";
                           Some "- the service was terribly slow" ]
    /\ map final_review_score rel = [ 0.9 * 1.2 * 1.0; 0.9 * 0.8 * 1.0 ]%Q
    /\ StronglySorted score_ge rel.
Proof.
  eexists _, _. split; [lazy; reflexivity|].
  split; [reflexivity|]. split; [reflexivity|].
  eapply (search_reviews_sorted_and_bounded Fake.two_reviews "quiet cafe" 2
            init_session).
  - reflexivity.
  - lazy. reflexivity.
Defined.

(** X2. Every row [search_reviews] returns carries the text and the place of
    a review of [reviews_df] whose place is set: the review [iloc] reads at
    a label the index returned that is below the length of the frame (the
    padding label [-1] passes that test and reads the last review).  The row
    has the similarity the index gave with that label, and the lower-cased
    label of the sentiment model on the first 512 characters of the text. *)
Theorem search_reviews_rows_come_from_corpus (B : Backend) (query : string)
    (top_k : Z) (s s' : Session) (rel : list ScoredReview)
    (r : ScoredReview) :
  search_reviews B query top_k s = (Ok rel, s') ->
  In r rel ->
  exists i rv,
    In (i, similarity_score r) (query_hits B query top_k)
    /\ (i < Z.of_nat (List.length (reviews_df B)))%Z
    /\ iloc B i = Some rv
    /\ In rv (reviews_df B)
    /\ place_firm_id rv = Some (sr_place_firm_id r)
    /\ text rv = sr_text r
    /\ sentiment_label r
       = Text.lower
           (fst (sentiment_model B
                   (Text.prefix 512 (match text rv with
                                     | Some t => t
                                     | None => EmptyString
                                     end)))).
Proof.
  intros Hrun Hr.
  destruct (search_reviews_inv B _ _ _ _ _ Hrun) as (_ & _ & _ & Hin).
  apply Hin in Hr. apply filter_In in Hr. destruct Hr as [Hr _].
  unfold scored_candidates in Hr. apply in_map_iff in Hr.
  destruct Hr as ([[rv p] d] & Hr & Hrow). subst r.
  apply with_place_In in Hrow. destruct Hrow as [Hrow Hp].
  apply valid_rows_In in Hrow. destruct Hrow as (i & Hh & Hlt & Hn).
  exists i, rv. unfold score_row.
  cbn [similarity_score sr_place_firm_id sr_text sentiment_label].
  repeat split; auto.
  eapply iloc_In; eassumption.
Qed.

Lemma search_reviews_rows_come_from_corpus_witness :
  exists rel s' r,
    search_reviews Fake.padded "quiet cafe" 300 init_session = (Ok rel, s')
    /\ In r rel
    /\ sr_text r = Some "+ the coffee was really lovely"
    /\ exists i rv,
         In (i, similarity_score r) (query_hits Fake.padded "quiet cafe" 300)
         /\ iloc Fake.padded i = Some rv
         /\ place_firm_id rv = Some (sr_place_firm_id r)
         /\ text rv = sr_text r.
Proof.
  eexists _, _, _. split; [lazy; reflexivity|].
  split; [left; reflexivity|]. split; [reflexivity|].
  destruct (search_reviews_rows_come_from_corpus Fake.padded
              "quiet cafe" 300 init_session _ _ _
              ltac:(lazy; reflexivity) (or_introl eq_refl))
    as (i & rv & Hh & _ & Hn & _ & Hp & Ht & _).
  exists i, rv. auto.
Defined.

(** The padding label reads the last review of the frame. *)
Example padding_label_reads_last_review :
  valid_rows Fake.padded [ ((-1)%Z, 0.8%Q); (2%Z, 0.7%Q) ]
  = [ (mkReview (Some "+ the coffee was really lovely") (Some 7%Z), 0.8%Q) ].
Proof. reflexivity. Qed.

(** ** The places [search_places] returns *)

Section ReturnedPlaces.
Context (B : Backend).

(** A returned row is the aggregate of its place over the cached frame and
    passed the minimum-review filter. *)
Lemma returned_place_inv (query : string) (top_k min_reviews : option Z)
    (aggregation : option string) (s s' : Session)
    (rows : list PlaceResult) (r : PlaceResult) :
  search_places B query top_k min_reviews aggregation s = (Ok rows, s') ->
  In r rows ->
  exists rel s1,
    search_reviews B query 300 s = (Ok rel, s1)
    /\ s' = cached (cap_per_place rel) s1
    /\ pr_scores r
       = aggregate_place (cap_per_place rel)
                         (ps_place_firm_id (pr_scores r))
    /\ (exists x, In x (cap_per_place rel)
                  /\ sr_place_firm_id x = ps_place_firm_id (pr_scores r))
    /\ (or_default_Z min_reviews config.DEFAULT_MIN_REVIEWS
        <= Z.of_nat (review_count (pr_scores r)))%Z.
Proof.
  intros Hrun Hr.
  destruct (search_places_inv B _ _ _ _ _ _ _ _ Hrun Hr)
    as (rel & s1 & scored & Hrev & Hs' & Hsc & Hrows).
  exists rel, s1. subst rows.
  apply join_and_clean_In in Hr.
  destruct (add_final_score_In _ _ _ _ _ _ Hsc Hr) as [Hp _].
  apply filter_In in Hp. destruct Hp as [Hp Hmin].
  apply aggregate_In in Hp. destruct Hp as [Hp Hex].
  repeat split; auto. now apply Z.leb_le.
Qed.

Lemma capped_group_length (rel : list ScoredReview) (k : Z) :
  (List.length (group_rows sr_place_firm_id k (cap_per_place rel)) <= 15)%nat.
Proof. rewrite cap_per_place_group, length_firstn. lia. Qed.

Lemma filter_none {A} (f : A -> bool) (l : list A) :
  (forall x, In x l -> f x = false) -> filter f l = [].
Proof.
  induction l as [|x t IH]; intros H; simpl; [reflexivity|].
  rewrite (H x (or_introl eq_refl)). apply IH.
  intros y Hy. apply H. now right.
Qed.

End ReturnedPlaces.

(** X3. Every place [search_places] returns has at least [min_reviews]
    (after the default is applied) and between 1 and 15 scored reviews. *)
Theorem returned_review_count_bounds (B : Backend) (query : string)
    (top_k min_reviews : option Z) (aggregation : option string)
    (s s' : Session) (rows : list PlaceResult) (r : PlaceResult) :
  search_places B query top_k min_reviews aggregation s = (Ok rows, s') ->
  In r rows ->
  (or_default_Z min_reviews config.DEFAULT_MIN_REVIEWS
   <= Z.of_nat (review_count (pr_scores r)))%Z
  /\ (1 <= review_count (pr_scores r) <= 15)%nat.
Proof.
  intros Hrun Hr.
  destruct (returned_place_inv B _ _ _ _ _ _ _ _ Hrun Hr)
    as (rel & s1 & _ & _ & Hp & (x & Hx & Hk) & Hmin).
  split; [exact Hmin|].
  rewrite Hp. cbn [aggregate_place review_count]. split.
  - assert (Hin : In x (group_rows sr_place_firm_id
                          (ps_place_firm_id (pr_scores r))
                          (cap_per_place rel)))
      by now apply group_rows_In.
    destruct (group_rows _ _ _); [destruct Hin|simpl; lia].
  - apply capped_group_length.
Qed.

Lemma returned_review_count_bounds_witness :
  exists r s',
    search_places Fake.crowded "quiet canteen" None (Some 4%Z) (Some "max")
                  init_session = (Ok [r], s')
    /\ (4 <= Z.of_nat (review_count (pr_scores r)))%Z
    /\ (1 <= review_count (pr_scores r) <= 15)%nat.
Proof.
  eexists _, _. split; [lazy -[Q2R]; reflexivity|].
  eapply (returned_review_count_bounds Fake.crowded "quiet canteen" None
            (Some 4%Z) (Some "max") init_session).
  - lazy -[Q2R]. reflexivity.
  - left. reflexivity.
Defined.

(** X4. The cap and the minimum-review filter together: with a
    [min_reviews] above 15 no place can qualify, so [search_places] returns
    the empty frame for every accepted query, whatever the aggregation name
    is, and [InvalidQuery] otherwise. *)
Theorem min_reviews_above_cap_finds_nothing (B : Backend) (query : string)
    (top_k min_reviews : option Z) (aggregation : option string)
    (s : Session) :
  (15 < or_default_Z min_reviews config.DEFAULT_MIN_REVIEWS)%Z ->
  fst (search_places B query top_k min_reviews aggregation s)
  = (if (String.length (normalize_text B query) =? 0)%nat
     then Raise InvalidQuery else Ok []).
Proof.
  intros Hmin.
  destruct (Nat.eqb_spec (String.length (normalize_text B query)) 0)
    as [E|NE].
  - unfold search_places, bind.
    now rewrite search_reviews_empty_query.
  - destruct (search_reviews_accepted B query 300 s NE)
      as (rel & extra & Hrun & _).
    rewrite (search_places_after_reviews B _ _ _ _ _ _ _ Hrun).
    destruct rel as [|r0 rel']; [reflexivity|]. cbv zeta.
    unfold min_reviews_filter. rewrite filter_none; [reflexivity|].
    intros p Hp. apply aggregate_In in Hp. destruct Hp as [Hp _].
    apply Z.leb_gt. rewrite Hp. cbn [aggregate_place review_count].
    pose proof (capped_group_length (r0 :: rel')
                  (ps_place_firm_id p)). lia.
Qed.

Lemma min_reviews_above_cap_finds_nothing_witness :
  fst (search_places Fake.crowded "quiet canteen" None (Some 16%Z) None
                     init_session) = Ok [].
Proof.
  apply (min_reviews_above_cap_finds_nothing Fake.crowded "quiet canteen"
           None (Some 16%Z) None init_session).
  reflexivity.
Defined.

(** ** Aggregates of a returned place *)

Lemma Qmax_list_In (x : Q) (l : list Q) : In (Qmax_list x l) (x :: l).
Proof.
  unfold Qmax_list. revert x; induction l as [|y t IH]; intros x.
  - now left.
  - cbn [fold_left]. destruct (Qle_bool x y).
    + right. apply IH.
    + destruct (IH x) as [E|H]; [left; exact E|right; now right].
Qed.

Lemma Qmax_list_upper (x : Q) (l : list Q) :
  Forall (fun y => y <= Qmax_list x l)%Q (x :: l).
Proof.
  constructor; [apply Qmax_list_ge|].
  unfold Qmax_list. revert x; induction l as [|y t IH]; intros x;
    constructor.
  - cbn [fold_left]. destruct (Qle_bool x y) eqn:E.
    + apply Qmax_list_ge.
    + assert (Hyx : (y <= x)%Q).
      { destruct (Qlt_le_dec x y) as [Hlt|Hle]; [|exact Hle].
        apply Qlt_le_weak, Qle_bool_iff in Hlt. congruence. }
      eapply Qle_trans; [exact Hyx|apply Qmax_list_ge].
  - cbn [fold_left]. apply IH.
Qed.

(** X5. For every returned place, [review_count] is the number of cached
    reviews of the place and [max_score] is the score of one of them, which
    none of them exceeds and which is above the threshold of the query. *)
Theorem returned_score_aggregates (B : Backend) (query : string)
    (top_k min_reviews : option Z) (aggregation : option string)
    (s s' : Session) (rows : list PlaceResult) (r : PlaceResult)
    (last : list ScoredReview) (query_sentiment : string) :
  search_places B query top_k min_reviews aggregation s = (Ok rows, s') ->
  In r rows ->
  _last_relevant_reviews s' = Some last ->
  _last_query_sentiment s' = Some query_sentiment ->
  let p := pr_scores r in
  let scores :=
    map final_review_score
        (group_rows sr_place_firm_id (ps_place_firm_id p) last) in
  review_count p = List.length scores
  /\ In (max_score p) scores
  /\ (forall x, In x scores -> x <= max_score p)%Q
  /\ (min_score query_sentiment < max_score p)%Q.
Proof.
  intros Hrun Hr Hlast Hqs p scores.
  destruct (returned_place_inv B _ _ _ _ _ _ _ _ Hrun Hr)
    as (rel & s1 & Hrev & Hs' & Hp & (x & Hx & Hk) & _).
  destruct (search_reviews_inv B _ _ _ _ _ Hrev) as (_ & Hql & _ & Hin).
  subst s'. cbn [cached _last_relevant_reviews _last_query_sentiment] in *.
  inversion Hlast; subst last. clear Hlast.
  rewrite Hql in Hqs. inversion Hqs; subst query_sentiment. clear Hqs.
  assert (Habove : forall y, In y scores ->
                             (min_score (query_label B query) < y)%Q).
  { intros y Hy. unfold scores in Hy.
    apply in_map_iff in Hy. destruct Hy as (z & <- & Hz).
    apply group_rows_In in Hz. destruct Hz as [Hz _].
    apply cap_per_place_In in Hz.
    eapply threshold_filter_pos, Hin, Hz. }
  assert (Hne : In (final_review_score x) scores).
  { unfold scores. apply in_map. now apply group_rows_In. }
  fold p in Hp. rewrite Hp.
  cbn [aggregate_place review_count max_score ps_place_firm_id].
  fold scores.
  split; [unfold scores; now rewrite length_map|].
  destruct scores as [|y ys] eqn:Es; [destruct Hne|].
  pose proof (Qmax_list_In y ys) as Hmax.
  split; [exact Hmax|].
  split; [apply Forall_forall, Qmax_list_upper|].
  now apply Habove.
Qed.

(** A place with two cached reviews, scoring 1.08 and 0.72 under a neutral
    query. *)
Lemma returned_score_aggregates_witness :
  exists r s' last,
    search_places Fake.two_reviews "quiet cafe" None (Some 1%Z) None
                  init_session = (Ok [r], s')
    /\ _last_relevant_reviews s' = Some last
    /\ map final_review_score (group_rows sr_place_firm_id 7 last)
       = [ 0.9 * 1.2 * 1.0; 0.9 * 0.8 * 1.0 ]%Q
    /\ review_count (pr_scores r) = 2%nat
    /\ (max_score (pr_scores r) == 1.08)%Q
    /\ (0.20 < max_score (pr_scores r))%Q.
Proof.
  eexists _, _, _.
  split; [lazy -[weighted_score]; reflexivity|].
  split; [reflexivity|]. split; [reflexivity|].
  split; [reflexivity|]. split; [reflexivity|].
  exact (proj2 (proj2 (proj2
    (returned_score_aggregates Fake.two_reviews "quiet cafe" None
       (Some 1%Z) None init_session _ _ _ _ "neutral"
       ltac:(lazy -[weighted_score]; reflexivity)
       (or_introl eq_refl) eq_refl eq_refl)))).
Defined.

(** ** Sentiment counts of a returned place *)

Lemma count_label_cons (label : string) (r : ScoredReview)
                       (g : list ScoredReview) :
  count_label label (r :: g) =
  ((if (sentiment_label r =? label)%string then 1 else 0)
   + count_label label g)%nat.
Proof.
  unfold count_label. cbn [filter].
  destruct (sentiment_label r =? label); reflexivity.
Qed.

Lemma count_label_sum (g : list ScoredReview) :
  (count_label "positive" g + count_label "negative" g
   + count_label "neutral" g <= List.length g)%nat
  /\ (Forall (fun r => sentiment_label r = "positive"
                       \/ sentiment_label r = "negative"
                       \/ sentiment_label r = "neutral") g ->
      (count_label "positive" g + count_label "negative" g
       + count_label "neutral" g = List.length g)%nat).
Proof.
  induction g as [|r t [IHle IHeq]].
  - split; [apply Nat.le_refl|reflexivity].
  - rewrite !count_label_cons. cbn [List.length]. split.
    + destruct (String.eqb_spec (sentiment_label r) "positive") as [E|_];
        [rewrite E; cbn [String.eqb Ascii.eqb Bool.eqb]; lia|].
      destruct (String.eqb_spec (sentiment_label r) "negative") as [E|_];
        [rewrite E; cbn [String.eqb Ascii.eqb Bool.eqb]; lia|].
      destruct (sentiment_label r =? "neutral"); lia.
    + intros H. inversion H as [|? ? Hr Ht]; subst.
      specialize (IHeq Ht).
      destruct Hr as [E|[E|E]]; rewrite E;
        cbn [String.eqb Ascii.eqb Bool.eqb]; lia.
Qed.

(** X6. For every returned place the three sentiment counts add up to at
    most [review_count], and to exactly [review_count] when the sentiment
    model only ever answers with the labels positive, negative and neutral
    (in any letter case). *)
Theorem returned_sentiment_counts (B : Backend) (query : string)
    (top_k min_reviews : option Z) (aggregation : option string)
    (s s' : Session) (rows : list PlaceResult) (r : PlaceResult) :
  search_places B query top_k min_reviews aggregation s = (Ok rows, s') ->
  In r rows ->
  let p := pr_scores r in
  (positive_reviews p + negative_reviews p + neutral_reviews p
   <= review_count p)%nat
  /\ ((forall t, let label := Text.lower (fst (sentiment_model B t)) in
                 label = "positive" \/ label = "negative"
                 \/ label = "neutral") ->
      (positive_reviews p + negative_reviews p + neutral_reviews p
       = review_count p)%nat).
Proof.
  intros Hrun Hr p.
  destruct (returned_place_inv B _ _ _ _ _ _ _ _ Hrun Hr)
    as (rel & s1 & Hrev & _ & Hp & _ & _).
  fold p in Hp. rewrite Hp.
  cbn [aggregate_place positive_reviews negative_reviews neutral_reviews
       review_count].
  split; [apply count_label_sum|].
  intros Hknown. apply count_label_sum.
  apply Forall_forall. intros x Hx.
  apply group_rows_In in Hx. destruct Hx as [Hx _].
  apply cap_per_place_In in Hx.
  destruct (returned_label_is_model_answer B _ _ _ _ _ x Hrev Hx)
    as (t & ->).
  apply Hknown.
Qed.

Lemma fake_sentiment_labels (t : string) :
  let label := Text.lower (fst (Fake.fake_sentiment t)) in
  label = "positive" \/ label = "negative" \/ label = "neutral".
Proof.
  destruct t as [|[[] [] [] [] [] [] [] []] t]; cbv; auto.
Qed.

Lemma returned_sentiment_counts_witness :
  let run := search_places Fake.two_reviews "- awful service" None
                           (Some 1%Z) None init_session in
  let p := mkPlaceScores 7 (1.800 / 1) 1.800 1 (1.800 + 0) 0 1 0 in
  let r := mkPlaceResult (Some "Cafe") None None None
                         (weighted_score "negative" p) p in
  run = (Ok [r], snd run)
  /\ (positive_reviews p + negative_reviews p + neutral_reviews p
      = review_count p)%nat.
Proof.
  intros run p r.
  assert (E : run = (Ok [r], snd run))
    by (lazy -[weighted_score]; reflexivity).
  split; [exact E|].
  exact (proj2 (returned_sentiment_counts Fake.two_reviews
                  "- awful service" None (Some 1%Z) None init_session
                  (snd run) [r] r E (or_introl eq_refl))
               fake_sentiment_labels).
Defined.

(** X7. [get_place_sentiment_stats] after a search agrees with the returned
    frame: for every returned place it gives the place's
    [positive_reviews], [negative_reviews] and [neutral_reviews]; for a
    place with no cached review it gives three zeros. *)
Theorem sentiment_stats_match_returned_row (B : Backend) (query : string)
    (top_k min_reviews : option Z) (aggregation : option string)
    (s s' : Session) (rows : list PlaceResult) (r : PlaceResult) :
  search_places B query top_k min_reviews aggregation s = (Ok rows, s') ->
  In r rows ->
  get_place_sentiment_stats (ps_place_firm_id (pr_scores r)) s'
    = (Ok (positive_reviews (pr_scores r),
           negative_reviews (pr_scores r),
           neutral_reviews (pr_scores r)), s')
  /\ (forall id last,
        _last_relevant_reviews s' = Some last ->
        group_rows sr_place_firm_id id last = [] ->
        get_place_sentiment_stats id s' = (Ok (0, 0, 0)%nat, s')).
Proof.
  intros Hrun Hr.
  destruct (returned_place_inv B _ _ _ _ _ _ _ _ Hrun Hr)
    as (rel & s1 & _ & Hs' & Hp & _ & _).
  unfold get_place_sentiment_stats, bind, get_session, ret. split.
  - rewrite Hs'. cbn [cached _last_relevant_reviews].
    remember (ps_place_firm_id (pr_scores r)) as k. rewrite Hp.
    reflexivity.
  - intros id last Hlast Hnone. rewrite Hlast, Hnone. reflexivity.
Qed.

Lemma sentiment_stats_match_returned_row_witness :
  let run := search_places Fake.two_reviews "- awful service" None
                           (Some 1%Z) None init_session in
  fst (get_place_sentiment_stats 7 (snd run)) = Ok (0, 1, 0)%nat
  /\ fst (get_place_sentiment_stats 8 (snd run)) = Ok (0, 0, 0)%nat.
Proof.
  intros run.
  pose (p := mkPlaceScores 7 (1.800 / 1) 1.800 1 (1.800 + 0) 0 1 0).
  pose (r := mkPlaceResult (Some "Cafe") None None None
                           (weighted_score "negative" p) p).
  assert (E : run = (Ok [r], snd run))
    by (lazy -[weighted_score]; reflexivity).
  destruct (sentiment_stats_match_returned_row Fake.two_reviews
              "- awful service" None (Some 1%Z) None init_session
              (snd run) [r] r E (or_introl eq_refl)) as [H1 H2].
  split.
  - change 7%Z with (ps_place_firm_id (pr_scores r)). now rewrite H1.
  - erewrite H2; reflexivity.
Defined.

(** ** Order, names and size of the returned frame *)

Lemma Rltb_lt (x y : R) : Rltb x y = true <-> (x < y)%R.
Proof.
  unfold Rltb. destruct (Rlt_dec x y); split; intros; auto; discriminate.
Qed.

Lemma Rltb_ge (x y : R) : Rltb x y = false <-> (y <= x)%R.
Proof.
  unfold Rltb. destruct (Rlt_dec x y) as [H|H]; split; intros H'; auto.
  - discriminate.
  - lra.
  - lra.
Qed.

Section RankOrder.
Context {A : Type} (f : A -> R).

Lemma insert_desc_sorted_R (x : A) (l : list A) :
  StronglySorted (fun a b => f b <= f a)%R l ->
  StronglySorted (fun a b => f b <= f a)%R
                 (insert_desc (fun a b => Rltb (f a) (f b)) x l).
Proof.
  induction 1 as [|y t Hs IH Hy]; simpl.
  - repeat constructor.
  - destruct (Rltb (f x) (f y)) eqn:E.
    + constructor; [exact IH|].
      eapply Permutation_Forall; [apply insert_desc_perm|].
      constructor; [|exact Hy].
      apply Rltb_lt in E. lra.
    + apply Rltb_ge in E.
      constructor; [now constructor|].
      constructor; [exact E|].
      eapply Forall_impl; [|exact Hy].
      intros z Hz. cbv beta in *. lra.
Qed.

Lemma sort_desc_sorted_R (l : list A) :
  StronglySorted (fun a b => f b <= f a)%R
                 (sort_desc (fun a b => Rltb (f a) (f b)) l).
Proof.
  induction l as [|x t IH]; simpl.
  - constructor.
  - now apply insert_desc_sorted_R.
Qed.

End RankOrder.

Lemma StronglySorted_app {A} (R : A -> A -> Prop) (l1 l2 : list A) :
  StronglySorted R l1 -> StronglySorted R l2 ->
  (forall x y, In x l1 -> In y l2 -> R x y) ->
  StronglySorted R (l1 ++ l2).
Proof.
  induction 1 as [|x t Hs IH Hx]; intros H2 H12; simpl; [exact H2|].
  constructor.
  - apply IH; [exact H2|]. intros a b Ha Hb. apply H12; [now right|exact Hb].
  - apply Forall_app. split; [exact Hx|].
    apply Forall_forall. intros b Hb. apply H12; [now left|exact Hb].
Qed.

Lemma place_order_swap (a b : PlaceScores * R) :
  (snd a < snd b)%R -> sort_desc place_ltb [a; b] = [b; a].
Proof.
  intros H. unfold sort_desc. cbn [fold_right insert_desc].
  unfold place_ltb. apply Rltb_lt in H. now rewrite H.
Qed.

Section RankedFrame.
Context (B : Backend).

Lemma merge_rows_sorted (rows : list (PlaceScores * R)) :
  StronglySorted (fun a b => snd b <= snd a)%R rows ->
  StronglySorted ranked (flat_map (merge_row B) rows).
Proof.
  induction 1 as [|x t Hs IH Hx]; simpl; [constructor|].
  assert (Hsame : forall a, In a (merge_row B x) -> final_score a = snd x).
  { intros a Ha. apply merge_row_In in Ha. now rewrite <- Ha. }
  apply StronglySorted_app; [|exact IH|].
  - induction (merge_row B x) as [|a m IHm]; constructor.
    + apply IHm. intros b Hb. apply Hsame. now right.
    + apply Forall_forall. intros b Hb. unfold ranked.
      rewrite (Hsame a (or_introl eq_refl)), (Hsame b (or_intror Hb)).
      apply Rle_refl.
  - intros a b Ha Hb. apply in_flat_map in Hb.
    destruct Hb as (y & Hy & Hb). apply merge_row_In in Hb.
    assert (Eb : final_score b = snd y) by now rewrite <- Hb.
    unfold ranked. rewrite (Hsame a Ha), Eb.
    rewrite Forall_forall in Hx. now apply Hx.
Qed.

Lemma drop_duplicates_from_sorted (R : PlaceResult -> PlaceResult -> Prop)
    (seen : list (option string)) (l : list PlaceResult) :
  StronglySorted R l -> StronglySorted R (drop_duplicates_from seen l).
Proof.
  intros H; revert seen; induction H as [|x t Hs IH Hx]; intros seen; simpl;
    [constructor|].
  destruct (existsb (name_eqb (pr_name x)) seen); [apply IH|].
  constructor; [apply IH|].
  apply Forall_forall. intros y Hy. apply drop_duplicates_from_In in Hy.
  rewrite Forall_forall in Hx. now apply Hx.
Qed.

Lemma head_sorted {A} (R : A -> A -> Prop) (n : Z) (l : list A) :
  StronglySorted R l -> StronglySorted R (head n l).
Proof.
  intros H. unfold head. destruct (0 <=? n)%Z; now apply StronglySorted_firstn.
Qed.

Lemma join_and_clean_sorted (top_k : Z) (scored : list (PlaceScores * R)) :
  StronglySorted ranked (join_and_clean B top_k scored).
Proof.
  unfold join_and_clean, nlargest.
  apply head_sorted, StronglySorted_filter, drop_duplicates_from_sorted.
  apply merge_rows_sorted, StronglySorted_firstn.
  apply (sort_desc_sorted_R (@snd PlaceScores R)).
Qed.

(** The frame a successful [search_places] returns, whichever [return]
    produced it. *)
Lemma search_places_rows (query : string) (top_k min_reviews : option Z)
    (aggregation : option string) (s s' : Session)
    (rows : list PlaceResult) :
  search_places B query top_k min_reviews aggregation s = (Ok rows, s') ->
  rows = []
  \/ exists scored,
       rows = join_and_clean B (or_default_Z top_k config.DEFAULT_TOP_K)
                             scored.
Proof.
  intros Hrun. destruct rows as [|r rows']; [now left|right].
  destruct (search_places_inv B _ _ _ _ _ _ _ r Hrun (or_introl eq_refl))
    as (rel & s1 & scored & _ & _ & _ & Hrows).
  now exists scored.
Qed.

End RankedFrame.

(** X8. The frame [search_places] returns is in descending order of
    [final_score]. *)
Theorem returned_places_ranked (B : Backend) (query : string)
    (top_k min_reviews : option Z) (aggregation : option string)
    (s s' : Session) (rows : list PlaceResult) :
  search_places B query top_k min_reviews aggregation s = (Ok rows, s') ->
  StronglySorted (fun a b => final_score b <= final_score a)%R rows.
Proof.
  intros Hrun.
  destruct (search_places_rows B _ _ _ _ _ _ _ Hrun) as [->|[scored ->]].
  - constructor.
  - apply join_and_clean_sorted.
Qed.

(** Two places whose scores differ: the place of the second hit, at the
    higher similarity, comes first. *)
Lemma two_places_run :
  exists a b s',
    search_places Fake.two_places "quiet cafe" None (Some 1%Z) (Some "mean")
                  init_session = (Ok [a; b], s')
    /\ pr_name a = Some "Bistro" /\ pr_name b = Some "Diner"
    /\ (final_score b < final_score a)%R.
Proof.
  eexists _, _, _. split.
  - erewrite search_places_after_reviews by (lazy; reflexivity).
    lazy -[join_and_clean Q2R]. unfold join_and_clean, nlargest.
    rewrite place_order_swap by (apply Qlt_Rlt; reflexivity).
    lazy -[Q2R]. reflexivity.
  - split; [reflexivity|]. split; [reflexivity|].
    apply Qlt_Rlt. reflexivity.
Qed.

Lemma returned_places_ranked_witness :
  exists a b s',
    search_places Fake.two_places "quiet cafe" None (Some 1%Z) (Some "mean")
                  init_session = (Ok [a; b], s')
    /\ pr_name a = Some "Bistro" /\ pr_name b = Some "Diner"
    /\ (final_score b < final_score a)%R
    /\ StronglySorted (fun a b => final_score b <= final_score a)%R [a; b].
Proof.
  destruct two_places_run as (a & b & s' & E & Ha & Hb & Hlt).
  exists a, b, s'. split; [exact E|]. split; [exact Ha|]. split; [exact Hb|].
  split; [exact Hlt|].
  exact (returned_places_ranked Fake.two_places "quiet cafe" None (Some 1%Z)
           (Some "mean") init_session s' [a; b] E).
Defined.

Lemma name_eqb_eq (x y : option string) : name_eqb x y = true <-> x = y.
Proof.
  destruct x as [a|], y as [b|]; simpl; split; intros H;
    try discriminate; try reflexivity.
  - apply String.eqb_eq in H. now subst.
  - inversion H. apply String.eqb_refl.
Qed.

Lemma drop_duplicates_from_names (seen : list (option string))
                                 (l : list PlaceResult) :
  NoDup (map pr_name (drop_duplicates_from seen l))
  /\ (forall r, In r (drop_duplicates_from seen l) -> ~ In (pr_name r) seen).
Proof.
  revert seen; induction l as [|x t IH]; intros seen; simpl.
  - split; [constructor|intros r []].
  - destruct (existsb (name_eqb (pr_name x)) seen) eqn:E; [apply IH|].
    destruct (IH (pr_name x :: seen)) as [Hnd Hseen]. split.
    + cbn [map]. constructor; [|exact Hnd].
      intros Hin. apply in_map_iff in Hin. destruct Hin as (r & Er & Hr).
      apply (Hseen r Hr). left. now symmetry.
    + intros r [<-|Hr].
      * intros Hin.
        assert (Ht : existsb (name_eqb (pr_name x)) seen = true).
        { apply existsb_exists. exists (pr_name x).
          split; [exact Hin|now apply name_eqb_eq]. }
        congruence.
      * intros Hin. apply (Hseen r Hr). now right.
Qed.

Lemma NoDup_map_filter {A C} (f : A -> C) (g : A -> bool) (l : list A) :
  NoDup (map f l) -> NoDup (map f (filter g l)).
Proof.
  induction l as [|x t IH]; simpl; intros H; [constructor|].
  inversion H as [|? ? Hx Ht]; subst.
  destruct (g x); cbn [map]; [|now apply IH].
  constructor; [|now apply IH].
  intros Hin. apply Hx. apply in_map_iff in Hin.
  destruct Hin as (y & Ey & Hy). apply filter_In in Hy.
  apply in_map_iff. exists y. tauto.
Qed.

Lemma NoDup_map_firstn {A C} (f : A -> C) (n : nat) (l : list A) :
  NoDup (map f l) -> NoDup (map f (firstn n l)).
Proof.
  revert l; induction n as [|n IH]; intros [|x t]; simpl; intros H;
    try constructor.
  - inversion H as [|? ? Hx Ht]; subst.
    intros Hin. apply Hx. apply in_map_iff in Hin.
    destruct Hin as (y & Ey & Hy). apply firstn_In in Hy.
    apply in_map_iff. now exists y.
  - inversion H; subst. now apply IH.
Qed.

Lemma merge_row_metadata (B : Backend) (row : PlaceScores * R)
                         (r : PlaceResult) (n : string) :
  In r (merge_row B row) -> pr_name r = Some n ->
  exists pl, In pl (places_df B)
             /\ firm_id pl = ps_place_firm_id (pr_scores r)
             /\ name pl = pr_name r /\ address pl = pr_address r
             /\ category pl = pr_category r /\ rating pl = pr_rating r.
Proof.
  intros Hin Hn. pose proof (merge_row_In B row r Hin) as Hrow.
  unfold merge_row in Hin.
  destruct (filter _ (places_df B)) as [|m ms] eqn:E.
  - destruct Hin as [<-|[]]. discriminate.
  - apply in_map_iff in Hin. destruct Hin as (pl & <- & Hpl).
    rewrite <- E in Hpl. apply filter_In in Hpl. destruct Hpl as [Hpl Hid].
    exists pl. cbn. repeat split; auto. now apply Z.eqb_eq.
Qed.

(** X9. In the frame [search_places] returns no name occurs twice, every
    row has a name and that name is not the string [nan]; and the name,
    address, category and rating of a row are those of a row of [places_df]
    whose [firm_id] is the place of the row. *)
Theorem returned_names_distinct (B : Backend) (query : string)
    (top_k min_reviews : option Z) (aggregation : option string)
    (s s' : Session) (rows : list PlaceResult) :
  search_places B query top_k min_reviews aggregation s = (Ok rows, s') ->
  NoDup (map pr_name rows)
  /\ (forall r, In r rows ->
        exists n pl,
          pr_name r = Some n /\ n <> "nan"
          /\ In pl (places_df B)
          /\ firm_id pl = ps_place_firm_id (pr_scores r)
          /\ name pl = pr_name r /\ address pl = pr_address r
          /\ category pl = pr_category r /\ rating pl = pr_rating r).
Proof.
  intros Hrun.
  destruct (search_places_rows B _ _ _ _ _ _ _ Hrun) as [->|[scored ->]].
  - split; [constructor|intros r []].
  - unfold join_and_clean. split.
    + unfold head.
      destruct (0 <=? _)%Z; apply NoDup_map_firstn, NoDup_map_filter,
        drop_duplicates_from_names.
    + intros r Hr. apply head_In in Hr. apply filter_In in Hr.
      destruct Hr as [Hr Hname]. unfold has_name in Hname.
      destruct (pr_name r) as [n|] eqn:En; [|discriminate].
      apply drop_duplicates_from_In in Hr. apply in_flat_map in Hr.
      destruct Hr as (row & _ & Hr).
      destruct (merge_row_metadata B row r n Hr En) as (pl & Hpl).
      exists n, pl. rewrite <- En. split; [reflexivity|].
      split; [|exact Hpl].
      intros ->. discriminate.
Qed.

Lemma returned_names_distinct_witness :
  NoDup (map pr_name [cafe_row])
  /\ exists pl, In pl (places_df Fake.two_reviews)
                /\ name pl = pr_name cafe_row.
Proof.
  destruct (returned_names_distinct Fake.two_reviews "- awful service" None
              (Some 1%Z) None init_session _ [cafe_row] two_reviews_run)
    as [Hnd Hrows].
  split; [exact Hnd|].
  destruct (Hrows cafe_row (or_introl eq_refl))
    as (n & pl & _ & _ & Hpl & _ & Hname & _).
  now exists pl.
Defined.

(** X10. [search_places] returns at most [top_k] rows (after the default is
    applied), and therefore no row at all for a negative [top_k]. *)
Theorem returned_frame_size (B : Backend) (query : string)
    (top_k min_reviews : option Z) (aggregation : option string)
    (s s' : Session) (rows : list PlaceResult) :
  search_places B query top_k min_reviews aggregation s = (Ok rows, s') ->
  (List.length rows
   <= Z.to_nat (or_default_Z top_k config.DEFAULT_TOP_K))%nat.
Proof.
  intros Hrun.
  destruct (search_places_rows B _ _ _ _ _ _ _ Hrun) as [->|[scored ->]];
    [simpl; lia|].
  destruct (Z.leb_spec 0 (or_default_Z top_k config.DEFAULT_TOP_K))
    as [Hk|Hk].
  - now apply join_and_clean_length.
  - unfold join_and_clean, nlargest.
    replace (Z.to_nat (or_default_Z top_k config.DEFAULT_TOP_K * 2))
      with 0%nat by lia.
    cbn [firstn flat_map drop_duplicates_from filter].
    unfold head. destruct (0 <=? _)%Z; rewrite firstn_nil; simpl; lia.
Qed.

Lemma returned_frame_size_witness :
  exists rows s',
    search_places Fake.twelve_places "quiet place" (Some (-3)%Z) (Some 1%Z)
                  (Some "mean") init_session = (Ok rows, s')
    /\ rows = [].
Proof.
  eexists _, _. split.
  - erewrite search_places_after_reviews by (lazy; reflexivity).
    lazy -[join_and_clean Q2R]. reflexivity.
  - apply length_zero_iff_nil. apply Nat.le_0_r.
    apply (returned_frame_size Fake.twelve_places "quiet place"
             (Some (-3)%Z) (Some 1%Z) (Some "mean") init_session
             (snd (search_places Fake.twelve_places "quiet place"
                     (Some (-3)%Z) (Some 1%Z) (Some "mean") init_session))).
    erewrite search_places_after_reviews by (lazy; reflexivity).
    lazy -[join_and_clean Q2R]. reflexivity.
Defined.

(** ** The previous session does not matter *)

Section Outcome.
Context (B : Backend).

(** The frame [search_reviews] finds for a query, read off
    [search_reviews_result]. *)
Lemma search_reviews_run (query : string) (top_k : Z) (s : Session) :
  String.length (normalize_text B query) <> 0%nat ->
  exists s1,
    search_reviews B query top_k s
      = (Ok (nlargest review_ltb top_k
               (threshold_filter (query_label B query)
                  (scored_candidates B (query_label B query)
                     (with_place
                        (valid_rows B (query_hits B query top_k)))))), s1)
    /\ _last_query_sentiment s1 = Some (query_label B query)
    /\ _last_relevant_reviews s1 = _last_relevant_reviews s.
Proof.
  intros NE.
  destruct (search_reviews_accepted B query top_k s NE)
    as (rel & extra & Hrun & _).
  pose proof (search_reviews_result B query top_k s NE) as Hres.
  rewrite Hrun in Hres. cbn [fst] in Hres. inversion Hres; subst rel.
  eexists. split; [exact Hrun|]. split; reflexivity.
Qed.

Lemma search_places_empty_query (query : string)
    (top_k min_reviews : option Z) (aggregation : option string)
    (s : Session) :
  String.length (normalize_text B query) = 0%nat ->
  search_places B query top_k min_reviews aggregation s
  = (Raise InvalidQuery, s).
Proof.
  intros E. unfold search_places, bind.
  now rewrite search_reviews_empty_query.
Qed.

Lemma search_places_same_frame (query : string)
    (top_k min_reviews : option Z) (aggregation : option string)
    (s1 s2 : Session) :
  fst (search_places B query top_k min_reviews aggregation s1)
  = fst (search_places B query top_k min_reviews aggregation s2).
Proof.
  destruct (Nat.eq_dec (String.length (normalize_text B query)) 0)
    as [E|NE].
  - unfold search_places, bind.
    now rewrite !search_reviews_empty_query.
  - destruct (search_reviews_run query 300 s1 NE) as (a1 & H1 & Hq1 & _).
    destruct (search_reviews_run query 300 s2 NE) as (a2 & H2 & Hq2 & _).
    rewrite (search_places_after_reviews B _ _ _ _ _ _ _ H1).
    rewrite (search_places_after_reviews B _ _ _ _ _ _ _ H2).
    rewrite Hq1, Hq2.
    destruct (nlargest _ _ _) as [|r0 rel']; [reflexivity|]. cbv zeta.
    destruct (min_reviews_filter _ _) as [|p ps]; [reflexivity|].
    destruct (add_final_score _ _ _); reflexivity.
Qed.

Lemma search_places_cache (query : string)
    (top_k min_reviews : option Z) (aggregation : option string)
    (s : Session) :
  String.length (normalize_text B query) <> 0%nat ->
  let s' := snd (search_places B query top_k min_reviews aggregation s) in
  exists rel,
    fst (search_reviews B query 300 s) = Ok rel
    /\ _last_query_sentiment s' = Some (query_label B query)
    /\ _last_relevant_reviews s'
       = match rel with
         | [] => _last_relevant_reviews s
         | _ => Some (cap_per_place rel)
         end.
Proof.
  intros NE s'.
  destruct (search_reviews_run query 300 s NE) as (a & H & Hq & Hr).
  eexists. split; [rewrite H; reflexivity|]. unfold s'.
  rewrite (search_places_after_reviews B _ _ _ _ _ _ _ H).
  destruct (nlargest _ _ _) as [|r0 rel']; [now split|]. cbv zeta.
  destruct (min_reviews_filter _ _) as [|p ps]; [now split|].
  destruct (add_final_score _ _ _); now split.
Qed.

End Outcome.

(** X12. The outcome of [search_places] does not depend on the session it
    starts from: two calls with the same arguments give the same frame (or
    the same error) whatever was searched before, although the method reads
    [_last_query_sentiment] back from the session.  Repeating a call gives
    the same outcome again and leaves the two cache fields as the first call
    left them. *)
Theorem search_places_ignores_previous_session (B : Backend)
    (query : string) (top_k min_reviews : option Z)
    (aggregation : option string) (s1 s2 : Session) :
  let run := search_places B query top_k min_reviews aggregation in
  fst (run s1) = fst (run s2)
  /\ fst (run (snd (run s1))) = fst (run s1)
  /\ _last_relevant_reviews (snd (run (snd (run s1))))
     = _last_relevant_reviews (snd (run s1))
  /\ _last_query_sentiment (snd (run (snd (run s1))))
     = _last_query_sentiment (snd (run s1)).
Proof.
  intros run. unfold run.
  split; [apply search_places_same_frame|].
  split; [apply search_places_same_frame|].
  destruct (Nat.eq_dec (String.length (normalize_text B query)) 0)
    as [E|NE].
  - rewrite !(search_places_empty_query B _ _ _ _ _ E). now split.
  - set (s' := snd (search_places B query top_k min_reviews aggregation s1)).
    destruct (search_places_cache B query top_k min_reviews aggregation s1 NE)
      as (rel1 & Hf1 & Hq1 & Hr1).
    destruct (search_places_cache B query top_k min_reviews aggregation s' NE)
      as (rel2 & Hf2 & Hq2 & Hr2).
    fold s' in Hq1, Hr1.
    assert (Hrel : rel2 = rel1).
    { destruct (search_reviews_run B query 300 s1 NE) as (a1 & H1 & _).
      destruct (search_reviews_run B query 300 s' NE) as (a2 & H2 & _).
      rewrite H1 in Hf1. rewrite H2 in Hf2. cbn [fst] in Hf1, Hf2.
      congruence. }
    subst rel2. split; [|congruence].
    rewrite Hr2, Hr1. destruct rel1; reflexivity.
Qed.

(** ** What the multipliers allow *)

Lemma sentiment_to_weight_cases (label : string) :
  sentiment_to_weight label = 1.2%Q \/ sentiment_to_weight label = 1.0%Q
  \/ sentiment_to_weight label = 0.8%Q.
Proof.
  unfold sentiment_to_weight.
  destruct (_ =? "positive"); [auto|].
  destruct (_ =? "neutral"); [auto|].
  destruct (_ =? "negative"); auto.
Qed.

Lemma align_sentiment_cases (query_sentiment review_sent : string) :
  In (align_sentiment query_sentiment review_sent)
     [0.05%Q; 2.5%Q; 0.5%Q; 2.0%Q; 0.7%Q; 1.0%Q].
Proof.
  unfold align_sentiment.
  destruct (query_sentiment =? "negative").
  - destruct (review_sent =? "positive"); [simpl; auto|].
    destruct (review_sent =? "negative"); simpl; auto.
  - destruct (query_sentiment =? "positive"); [|simpl; auto 7].
    destruct (review_sent =? "negative"); [simpl; auto|].
    destruct (review_sent =? "positive"); simpl; auto 7.
Qed.

(** A returned row, opened up. *)
Lemma returned_row_inv (B : Backend) (query : string) (top_k : Z)
    (s s' : Session) (rel : list ScoredReview) (r : ScoredReview) :
  search_reviews B query top_k s = (Ok rel, s') ->
  In r rel ->
  _last_query_sentiment s' = Some (query_label B query)
  /\ (min_score (query_label B query) < final_review_score r)%Q
  /\ final_review_score r
     = (similarity_score r
        * sentiment_to_weight (sentiment_label r)
        * align_sentiment (query_label B query) (sentiment_label r))%Q
  /\ exists i, In (i, similarity_score r) (query_hits B query top_k).
Proof.
  intros Hrun Hr.
  destruct (search_reviews_inv B _ _ _ _ _ Hrun) as (_ & Hqs & _ & Hin).
  apply Hin in Hr. split; [exact Hqs|].
  split; [now apply threshold_filter_pos in Hr|].
  apply filter_In in Hr. destruct Hr as [Hr _].
  unfold scored_candidates in Hr. apply in_map_iff in Hr.
  destruct Hr as ([[rv p] d] & Hr & Hrow). subst r.
  split; [reflexivity|].
  apply with_place_In in Hrow. destruct Hrow as [Hrow _].
  apply valid_rows_In in Hrow. destruct Hrow as (i & Hh & _).
  now exists i.
Qed.

(** X13. Every review [search_reviews] returns has a positive similarity,
    indeed one above a third of the threshold, and its [final_review_score]
    is at most three times its similarity: reviews the index ranks at or
    below zero are never returned, whatever their sentiment. *)
Theorem returned_similarity_bounds (B : Backend) (query : string)
    (top_k : Z) (s s' : Session) (rel : list ScoredReview)
    (r : ScoredReview) (query_sentiment : string) :
  search_reviews B query top_k s = (Ok rel, s') ->
  In r rel ->
  _last_query_sentiment s' = Some query_sentiment ->
  (0 < similarity_score r)%Q
  /\ (min_score query_sentiment < 3 * similarity_score r)%Q
  /\ (final_review_score r <= 3 * similarity_score r)%Q.
Proof.
  intros Hrun Hr Hqs.
  destruct (returned_row_inv B _ _ _ _ _ r Hrun Hr)
    as (Hql & Habove & Hscore & _).
  rewrite Hql in Hqs. inversion Hqs; subst query_sentiment.
  pose proof (min_score_pos (query_label B query)) as Hmin.
  rewrite Hscore in *.
  pose proof (align_sentiment_cases (query_label B query)
                                    (sentiment_label r)) as Ha.
  cbn [In] in Ha.
  destruct (sentiment_to_weight_cases (sentiment_label r)) as [W|[W|W]];
    rewrite W in *;
    destruct Ha as [A|[A|[A|[A|[A|[A|[]]]]]]]; rewrite <- A in *;
    repeat split; Lqa.lra.
Qed.

Lemma returned_similarity_bounds_witness :
  exists r,
    fst (search_reviews Fake.two_reviews "- awful service" 300 init_session)
      = Ok [r]
    /\ (0 < similarity_score r)%Q
    /\ (final_review_score r <= 3 * similarity_score r)%Q.
Proof.
  eexists. split; [lazy; reflexivity|].
  destruct (returned_similarity_bounds Fake.two_reviews "- awful service"
              300 init_session _ _ _ "negative"
              ltac:(lazy; reflexivity) (or_introl eq_refl) eq_refl)
    as (H1 & _ & H3).
  split; [exact H1|exact H3].
Defined.

(** Labels that cannot pass the threshold together with the query's. *)
Lemma mismatched_label_excluded (B : Backend) (query : string)
    (top_k : Z) (s s' : Session) (rel : list ScoredReview)
    (r : ScoredReview) (query_sentiment : string) :
  (forall v k h, In h (index_search B v k) -> (snd h <= 1)%Q) ->
  search_reviews B query top_k s = (Ok rel, s') ->
  In r rel ->
  _last_query_sentiment s' = Some query_sentiment ->
  (query_sentiment = "negative" -> sentiment_label r <> "positive")
  /\ (query_sentiment = "positive" -> sentiment_label r <> "negative").
Proof.
  intros Hcos Hrun Hr Hqs.
  destruct (returned_row_inv B _ _ _ _ _ r Hrun Hr)
    as (Hql & Habove & Hscore & (i & Hhit)).
  rewrite Hql in Hqs. inversion Hqs as [Eq]. clear Hqs.
  unfold query_hits in Hhit. apply Hcos in Hhit. cbn [snd] in Hhit.
  rewrite Eq in *. rewrite Hscore in Habove.
  split; intros -> Hlabel; rewrite Hlabel in Habove;
    vm_compute min_score in Habove;
    vm_compute sentiment_to_weight in Habove;
    vm_compute align_sentiment in Habove; Lqa.lra.
Qed.

(** X14. When the index only gives similarities of at most 1, as cosine
    similarities are, a query classified negative never gets a review
    classified positive back, and a query classified positive never gets a
    review classified negative back: the mismatch multiplier 0.05 keeps
    them under the threshold. *)
Theorem opposite_sentiment_never_returned (B : Backend) (query : string)
    (top_k : Z) (s s' : Session) (rel : list ScoredReview)
    (r : ScoredReview) (query_sentiment : string) :
  (forall v k h, In h (index_search B v k) -> (snd h <= 1)%Q) ->
  search_reviews B query top_k s = (Ok rel, s') ->
  In r rel ->
  _last_query_sentiment s' = Some query_sentiment ->
  (query_sentiment = "negative" -> sentiment_label r <> "positive")
  /\ (query_sentiment = "positive" -> sentiment_label r <> "negative").
Proof.
  intros Hcos Hrun Hr Hqs.
  destruct (returned_row_inv B _ _ _ _ _ r Hrun Hr)
    as (Hql & Habove & Hscore & (i & Hhit)).
  rewrite Hql in Hqs. inversion Hqs as [Eq]. clear Hqs.
  unfold query_hits in Hhit. apply Hcos in Hhit. cbn [snd] in Hhit.
  rewrite Eq in *. rewrite Hscore in Habove.
  split; intros -> Hlabel; rewrite Hlabel in Habove;
    vm_compute min_score in Habove;
    vm_compute sentiment_to_weight in Habove;
    vm_compute align_sentiment in Habove; Lqa.lra.
Qed.

Lemma opposite_sentiment_never_returned_witness :
  exists r,
    fst (search_reviews Fake.two_reviews "- awful service" 300 init_session)
      = Ok [r]
    /\ sentiment_label r <> "positive".
Proof.
  eexists. split; [lazy; reflexivity|].
  refine (proj1 (opposite_sentiment_never_returned Fake.two_reviews
                   "- awful service" 300 init_session _ _ _ "negative"
                   _ ltac:(lazy; reflexivity) (or_introl eq_refl) eq_refl)
                eq_refl).
  intros v k h Hh. cbn in Hh. apply firstn_In in Hh.
  destruct Hh as [<-|[<-|[]]]; vm_compute; discriminate.
Defined.

Lemma count_label_none (label : string) (g : list ScoredReview) :
  (forall r, In r g -> sentiment_label r <> label) ->
  count_label label g = 0%nat.
Proof.
  intros H. unfold count_label. rewrite filter_none; [reflexivity|].
  intros r Hr. apply String.eqb_neq. now apply H.
Qed.

(** X15. With similarities of at most 1, the places returned for a query
    classified negative have [positive_reviews = 0], and the places returned
    for a query classified positive have [negative_reviews = 0]. *)
Theorem returned_places_have_no_opposite_reviews (B : Backend)
    (query : string) (top_k min_reviews : option Z)
    (aggregation : option string) (s s' : Session)
    (rows : list PlaceResult) (r : PlaceResult) (query_sentiment : string) :
  (forall v k h, In h (index_search B v k) -> (snd h <= 1)%Q) ->
  search_places B query top_k min_reviews aggregation s = (Ok rows, s') ->
  In r rows ->
  _last_query_sentiment s' = Some query_sentiment ->
  (query_sentiment = "negative" -> positive_reviews (pr_scores r) = 0%nat)
  /\ (query_sentiment = "positive" ->
      negative_reviews (pr_scores r) = 0%nat).
Proof.
  intros Hcos Hrun Hr Hqs.
  destruct (returned_place_inv B _ _ _ _ _ _ _ _ Hrun Hr)
    as (rel & s1 & Hrev & Hs' & Hp & _ & _).
  subst s'. cbn [cached _last_query_sentiment] in Hqs.
  assert (Hrows : forall x,
            In x (group_rows sr_place_firm_id
                    (ps_place_firm_id (pr_scores r)) (cap_per_place rel)) ->
            In x rel).
  { intros x Hx. apply group_rows_In in Hx. destruct Hx as [Hx _].
    now apply cap_per_place_In. }
  split; intros Eq; rewrite Hp;
    cbn [aggregate_place positive_reviews negative_reviews];
    apply count_label_none; intros x Hx; apply Hrows in Hx;
    destruct (mismatched_label_excluded B query 300 s s1 rel x
                query_sentiment Hcos Hrev Hx Hqs) as [Hn Hp'];
    auto.
Qed.

Lemma returned_places_have_no_opposite_reviews_witness :
  positive_reviews (pr_scores cafe_row) = 0%nat.
Proof.
  refine (proj1 (returned_places_have_no_opposite_reviews Fake.two_reviews
                   "- awful service" None (Some 1%Z) None init_session _
                   [cafe_row] cafe_row "negative" _ two_reviews_run
                   (or_introl eq_refl) eq_refl) eq_refl).
  intros v k h Hh. cbn in Hh. apply firstn_In in Hh.
  destruct Hh as [<-|[<-|[]]]; vm_compute; discriminate.
Defined.

(** ** Highlights of a returned place *)

(** X16. [get_place_highlights] returns at most [top_k] texts, none when
    [top_k] is zero or negative, and after a search never more than the
    [review_count] of the place it is asked about. *)
Theorem highlights_count (B : Backend) (query : string)
    (top_k min_reviews : option Z) (aggregation : option string)
    (s s' : Session) (rows : list PlaceResult) (r : PlaceResult)
    (k : Z) (texts : list string) :
  search_places B query top_k min_reviews aggregation s = (Ok rows, s') ->
  In r rows ->
  fst (get_place_highlights B (ps_place_firm_id (pr_scores r)) k s')
    = Ok texts ->
  (List.length texts <= Z.to_nat k)%nat
  /\ (List.length texts <= review_count (pr_scores r))%nat.
Proof.
  intros Hrun Hr Hh.
  destruct (returned_place_inv B _ _ _ _ _ _ _ _ Hrun Hr)
    as (rel & s1 & _ & Hs' & Hp & _ & _).
  unfold get_place_highlights, bind, get_session, ret, top_reviews in Hh.
  cbn [fst] in Hh. rewrite Hs' in Hh. cbn [cached _last_relevant_reviews] in Hh.
  remember (ps_place_firm_id (pr_scores r)) as id.
  assert (Hcount : review_count (pr_scores r)
                   = List.length (group_rows sr_place_firm_id id
                                             (cap_per_place rel)))
    by (rewrite Hp; reflexivity).
  rewrite Hcount.
  assert (Hlen : forall l, (List.length (highlights_of B l)
                            <= List.length l)%nat).
  { intros l. rewrite highlights_of_filter, length_map.
    apply filter_length_le. }
  destruct (cap_per_place rel) as [|c0 capped'].
  { inversion Hh; subst texts. simpl. lia. }
  destruct (group_rows sr_place_firm_id id (c0 :: capped')) as [|g0 g].
  { inversion Hh; subst texts. simpl. lia. }
  inversion Hh; subst texts.
  pose proof (Hlen (nlargest review_ltb k (g0 :: g))) as H.
  rewrite nlargest_length in H. lia.
Qed.

Lemma highlights_count_witness :
  exists texts,
    fst (get_place_highlights Fake.two_reviews 7 3
           (snd (search_places Fake.two_reviews "- awful service" None
                               (Some 1%Z) None init_session)))
      = Ok texts
    /\ (List.length texts <= 1)%nat.
Proof.
  eexists. split; [lazy; reflexivity|].
  apply (highlights_count Fake.two_reviews "- awful service" None
           (Some 1%Z) None init_session _ [cafe_row] cafe_row 3 _
           two_reviews_run (or_introl eq_refl)).
  lazy. reflexivity.
Defined.

(** ** [normalize_text] *)

(** ** Characters of a string *)

Section Characters.

Lemma list_ascii_app (a b : string) :
  list_ascii_of_string (a ++ b)
  = list_ascii_of_string a ++ list_ascii_of_string b.
Proof.
  induction a as [|c a IH]; simpl; [reflexivity|]. now rewrite IH.
Qed.

Lemma string_of_app (a b : list ascii) :
  string_of_list_ascii (a ++ b)
  = (string_of_list_ascii a ++ string_of_list_ascii b)%string.
Proof.
  induction a as [|c a IH]; simpl; [reflexivity|]. now rewrite IH.
Qed.

Lemma list_ascii_length (s : string) :
  List.length (list_ascii_of_string s) = String.length s.
Proof. induction s as [|c s IH]; simpl; congruence. Qed.

Lemma string_of_length (l : list ascii) :
  String.length (string_of_list_ascii l) = List.length l.
Proof. induction l as [|c l IH]; simpl; congruence. Qed.

Lemma append_empty (s : string) : (s ++ EmptyString)%string = s.
Proof. induction s as [|c s IH]; simpl; congruence. Qed.

Lemma append_append (a b c : string) :
  ((a ++ b) ++ c = a ++ (b ++ c))%string.
Proof. induction a as [|x a IH]; simpl; congruence. Qed.

Lemma cat_app (a b : list string) :
  Text.cat (a ++ b) = (Text.cat a ++ Text.cat b)%string.
Proof.
  induction a as [|c a IH]; simpl; [reflexivity|].
  now rewrite IH, append_append.
Qed.

(** Reading the characters of a string and putting them together again
    gives the string back. *)
Lemma cat_chars_from (l : list ascii) (need : nat) (cur : list ascii) :
  Text.cat (Text.chars_from need cur l)
  = string_of_list_ascii (rev cur ++ l).
Proof.
  revert need cur; induction l as [|b t IH]; intros need cur.
  - rewrite app_nil_r. destruct need, cur; cbn [Text.chars_from Text.cat];
      try reflexivity; now rewrite append_empty.
  - destruct need as [|k].
    + destruct cur as [|c cur'].
      * cbn [Text.chars_from]. now rewrite IH.
      * cbn [Text.chars_from Text.cat]. rewrite IH.
        now rewrite <- string_of_app.
    + cbn [Text.chars_from]. rewrite IH. cbn [rev].
      now rewrite <- app_assoc.
Qed.

Lemma cat_chars (s : string) : Text.cat (Text.chars s) = s.
Proof.
  unfold Text.chars. rewrite cat_chars_from.
  apply string_of_list_ascii_of_string.
Qed.

Lemma chars_nil (s : string) : Text.chars s = [] <-> s = EmptyString.
Proof.
  split; [|intros ->; reflexivity].
  intros E. rewrite <- (cat_chars s), E. reflexivity.
Qed.

(** A string has no character exactly when it has no byte. *)
Lemma length_zero (s : string) :
  Text.length s = 0%nat <-> String.length s = 0%nat.
Proof.
  unfold Text.length. rewrite length_zero_iff_nil, chars_nil.
  destruct s; simpl; split; intros H; try reflexivity; discriminate.
Qed.

Lemma chars_from_fill (bs rest : list ascii) (k : nat) (cur : list ascii) :
  List.length bs = k ->
  Text.chars_from k cur (bs ++ rest) = Text.chars_from 0 (rev bs ++ cur) rest.
Proof.
  revert k cur; induction bs as [|x t IH]; intros k cur Hk.
  - simpl in Hk. subst k. reflexivity.
  - destruct k as [|k]; [discriminate|]. injection Hk as Hk.
    cbn [app Text.chars_from rev]. rewrite IH by exact Hk.
    now rewrite <- app_assoc.
Qed.

Lemma chars_from_flush (cur rest : list ascii) :
  cur <> [] ->
  Text.chars_from 0 cur rest
  = string_of_list_ascii (rev cur) :: Text.chars_from 0 [] rest.
Proof.
  intros H. destruct cur as [|c cur']; [congruence|].
  destruct rest; reflexivity.
Qed.

Lemma chars_from_short (bs : list ascii) (k : nat) (cur : list ascii) :
  (List.length bs <= k)%nat -> cur <> [] ->
  Text.chars_from k cur bs = [string_of_list_ascii (rev cur ++ bs)].
Proof.
  revert k cur; induction bs as [|x t IH]; intros k cur Hk Hcur.
  - rewrite app_nil_r. destruct cur as [|c cur']; [congruence|].
    destruct k; reflexivity.
  - destruct k as [|k]; [cbn [List.length] in Hk; lia|].
    cbn [Text.chars_from]. rewrite IH; [|cbn [List.length] in Hk; lia
                                        |discriminate].
    cbn [rev]. now rewrite <- app_assoc.
Qed.

Lemma whole_started (c : string) : whole c = true -> started c = true.
Proof.
  destruct c as [|b r]; [discriminate|]. cbn [whole started].
  intros H. apply Nat.eqb_eq in H. apply Nat.leb_le. lia.
Qed.

(** A whole character in front of a string is its first character. *)
Lemma chars_whole (c s : string) :
  whole c = true -> Text.chars (c ++ s) = c :: Text.chars s.
Proof.
  destruct c as [|b r]; [discriminate|]. cbn [whole]. intros H.
  apply Nat.eqb_eq in H. unfold Text.chars.
  cbn [append list_ascii_of_string]. rewrite list_ascii_app.
  cbn [Text.chars_from].
  rewrite chars_from_fill by (now rewrite list_ascii_length).
  rewrite chars_from_flush
    by (intros E; apply app_eq_nil in E; destruct E; discriminate).
  rewrite rev_app_distr, rev_involutive. cbn [rev app string_of_list_ascii].
  now rewrite string_of_list_ascii_of_string.
Qed.

Lemma chars_started (c : string) :
  started c = true -> Text.chars c = [c].
Proof.
  destruct c as [|b r]; [discriminate|]. cbn [started]. intros H.
  apply Nat.leb_le in H. unfold Text.chars.
  cbn [list_ascii_of_string Text.chars_from].
  rewrite chars_from_short;
    [|now rewrite list_ascii_length|discriminate].
  cbn [rev app string_of_list_ascii].
  now rewrite string_of_list_ascii_of_string.
Qed.

Lemma characters_cons (c : string) (t : list string) :
  whole c = true -> characters t = true -> characters (c :: t) = true.
Proof.
  intros Hc Ht. destruct t as [|c' t'].
  - now apply whole_started.
  - cbn [characters] in *. now rewrite Hc.
Qed.

Lemma characters_tail (c : string) (t : list string) :
  characters (c :: t) = true -> characters t = true.
Proof.
  destruct t as [|c' t']; [reflexivity|]. cbn [characters].
  intros H. apply andb_true_iff in H. apply H.
Qed.

Lemma characters_head (c c' : string) (t : list string) :
  characters (c :: c' :: t) = true -> whole c = true.
Proof. cbn [characters]. intros H. apply andb_true_iff in H. apply H. Qed.

Lemma characters_started (l : list string) (c : string) :
  characters l = true -> In c l -> started c = true.
Proof.
  induction l as [|x t IH]; [intros _ []|]. intros H [->|Hin].
  - destruct t; [exact H|]. apply whole_started.
    now apply characters_head in H.
  - apply IH; [now apply characters_tail in H|exact Hin].
Qed.

Lemma characters_app_l (a b : list string) :
  characters (a ++ b) = true -> characters a = true.
Proof.
  induction a as [|c a IH]; [reflexivity|]. intros H.
  destruct a as [|c' a'].
  - eapply characters_started; [exact H|now left].
  - apply characters_cons.
    + now apply characters_head in H.
    + apply IH. now apply characters_tail in H.
Qed.

Lemma characters_app_r (a b : list string) :
  characters (a ++ b) = true -> characters b = true.
Proof.
  induction a as [|c a IH]; [auto|]. intros H.
  apply IH. now apply characters_tail in H.
Qed.

Lemma characters_before (a : list string) (c : string) (t : list string) :
  characters (a ++ c :: t) = true -> forallb whole a = true.
Proof.
  induction a as [|x a IH]; [reflexivity|]. intros H.
  cbn [forallb]. apply andb_true_iff. split.
  - destruct a; now apply characters_head in H.
  - apply IH. now apply characters_tail in H.
Qed.

Lemma characters_app (a b : list string) :
  forallb whole a = true -> characters b = true ->
  characters (a ++ b) = true.
Proof.
  induction a as [|x a IH]; [auto|]. cbn [forallb]. intros Ha Hb.
  apply andb_true_iff in Ha. destruct Ha as [Hx Ha].
  apply characters_cons; auto.
Qed.

Lemma characters_filter (f : string -> bool) (l : list string) :
  characters l = true -> characters (filter f l) = true.
Proof.
  induction l as [|c t IH]; [reflexivity|]. intros H.
  pose proof (characters_tail _ _ H) as Ht. cbn [filter].
  destruct (f c); [|now apply IH].
  destruct t as [|c' t']; [exact H|].
  apply characters_cons; [now apply characters_head in H|now apply IH].
Qed.

Lemma characters_firstn (n : nat) (l : list string) :
  characters l = true -> characters (firstn n l) = true.
Proof.
  intros H. apply (characters_app_l _ (skipn n l)).
  now rewrite firstn_skipn.
Qed.

(** The characters [Text.chars] reads are whole, except that the last one
    may be cut short by the end of the string. *)
Lemma characters_chars_from (l : list ascii) (need : nat)
                            (cur : list ascii) :
  match rev cur with
  | [] => need = 0%nat
  | b :: r => (List.length r + need = Text.width b - 1)%nat
  end ->
  characters (Text.chars_from need cur l) = true.
Proof.
  revert need cur; induction l as [|x t IH]; intros need cur Hinv.
  - destruct cur as [|c cur']; [destruct need; reflexivity|].
    assert (E : Text.chars_from need (c :: cur') []
                = [string_of_list_ascii (rev (c :: cur'))])
      by (destruct need; reflexivity).
    rewrite E. destruct (rev (c :: cur')) as [|b r] eqn:Er.
    + apply (f_equal (@rev ascii)) in Er. rewrite rev_involutive in Er.
      discriminate.
    + cbn [characters string_of_list_ascii started].
      rewrite string_of_length. apply Nat.leb_le. lia.
  - destruct need as [|k].
    + assert (Hnext : characters (Text.chars_from (Text.width x - 1) [x] t)
                      = true) by (apply IH; reflexivity).
      destruct cur as [|c cur']; [exact Hnext|].
      cbn [Text.chars_from]. apply characters_cons; [|exact Hnext].
      destruct (rev (c :: cur')) as [|b r] eqn:Er.
      * apply (f_equal (@rev ascii)) in Er. rewrite rev_involutive in Er.
        discriminate.
      * cbn [string_of_list_ascii whole]. rewrite string_of_length.
        apply Nat.eqb_eq. lia.
    + cbn [Text.chars_from]. apply IH. cbn [rev].
      destruct (rev cur) as [|b r]; [discriminate|].
      cbn [app]. rewrite length_app. cbn [List.length]. lia.
Qed.

Lemma characters_chars (s : string) : characters (Text.chars s) = true.
Proof. apply characters_chars_from. reflexivity. Qed.

(** Characters put together are read back as they were. *)
Lemma chars_cat (l : list string) :
  characters l = true -> Text.chars (Text.cat l) = l.
Proof.
  induction l as [|c t IH]; [reflexivity|]. intros H.
  destruct t as [|c' t'].
  - cbn [Text.cat]. rewrite append_empty. now apply chars_started.
  - change (Text.cat (c :: c' :: t'))
      with (c ++ Text.cat (c' :: t'))%string.
    rewrite chars_whole by (now apply characters_head in H).
    f_equal. apply IH. now apply characters_tail in H.
Qed.

Lemma chars_prefix (n : nat) (t : string) :
  Text.chars (Text.prefix n t) = firstn n (Text.chars t).
Proof.
  unfold Text.prefix. apply chars_cat, characters_firstn, characters_chars.
Qed.

Lemma prefix_length (n : nat) (t : string) :
  (Text.length (Text.prefix n t) <= n)%nat.
Proof.
  unfold Text.length. rewrite chars_prefix, length_firstn. lia.
Qed.

(** A slice cuts characters: three Cyrillic letters are six bytes. *)
Example prefix_counts_characters :
  Text.prefix 3 "привет" = "при"
  /\ String.length (Text.prefix 3 "привет") = 6%nat
  /\ Text.length (Text.prefix 3 "привет") = 3%nat.
Proof. repeat split. Qed.

Lemma chars_encode_ignore (s : string) :
  Text.chars (Text.encode_ignore s)
  = filter (fun c => negb (Text.is_surrogate c)) (Text.chars s).
Proof.
  unfold Text.encode_ignore.
  apply chars_cat, characters_filter, characters_chars.
Qed.

End Characters.

(** ** Words of a string *)

Section Words.

Lemma words_from_word (w rest cur : list string) :
  forallb not_space w = true ->
  Text.words_from cur (w ++ rest) = Text.words_from (rev w ++ cur) rest.
Proof.
  revert cur; induction w as [|c w IH]; intros cur Hw; [reflexivity|].
  cbn [forallb] in Hw. apply andb_true_iff in Hw. destruct Hw as [Hc Hw].
  unfold not_space in Hc. apply negb_true_iff in Hc.
  cbn [app Text.words_from]. rewrite Hc, IH by exact Hw.
  cbn [rev]. now rewrite <- app_assoc.
Qed.

Lemma words_from_run (cur : list string) :
  forallb not_space cur = true -> forallb not_space (rev cur) = true.
Proof.
  intros H. apply forallb_forall. intros c Hc. apply in_rev in Hc.
  rewrite forallb_forall in H. now apply H.
Qed.

Lemma rev_not_nil {A} (l : list A) : l <> [] -> rev l <> [].
Proof.
  intros H E. apply (f_equal (@rev A)) in E. rewrite rev_involutive in E.
  now apply H.
Qed.

(** Each word [words_from] finds is a non-empty run without white space. *)
Lemma words_from_runs (l cur : list string) :
  forallb not_space cur = true ->
  Forall (fun w => w <> [] /\ forallb not_space w = true)
         (Text.words_from cur l).
Proof.
  revert cur; induction l as [|c t IH]; intros cur Hcur.
  - destruct cur as [|x cur']; [constructor|].
    constructor; [|constructor].
    split; [now apply rev_not_nil|now apply words_from_run].
  - cbn [Text.words_from]. destruct (Text.is_space c) eqn:Ec.
    + destruct cur as [|x cur']; [now apply IH|].
      constructor; [|now apply IH].
      split; [now apply rev_not_nil|now apply words_from_run].
    + apply IH. cbn [forallb]. unfold not_space at 1. now rewrite Ec.
Qed.

Lemma words_from_nil (l cur : list string) :
  Text.words_from cur l = [] <-> cur = [] /\ forallb Text.is_space l = true.
Proof.
  revert cur; induction l as [|c t IH]; intros cur; cbn [Text.words_from].
  - destruct cur; split; intros H; auto; try discriminate.
    destruct H; discriminate.
  - cbn [forallb]. destruct (Text.is_space c) eqn:Ec; cbn [andb].
    + destruct cur as [|x cur'].
      * rewrite IH. tauto.
      * split; [discriminate|]. intros [H _]. discriminate.
    + rewrite IH. split; [intros [H _]; discriminate|].
      intros [_ H]. discriminate.
Qed.

(** The characters of the words are characters of the text. *)
Lemma words_from_In (l cur : list string) (w : list string) (c : string) :
  In w (Text.words_from cur l) -> In c w -> In c cur \/ In c l.
Proof.
  revert cur; induction l as [|x t IH]; intros cur Hw Hc.
  - destruct cur as [|y cur']; [destruct Hw|].
    destruct Hw as [<-|[]]. left. now apply in_rev.
  - cbn [Text.words_from] in Hw. destruct (Text.is_space x).
    + destruct cur as [|y cur'].
      * destruct (IH [] Hw Hc) as [[]|H]. right. now right.
      * destruct Hw as [<-|Hw]; [left; now apply in_rev|].
        destruct (IH [] Hw Hc) as [[]|H]. right. now right.
    + destruct (IH (x :: cur) Hw Hc) as [[<-|H]|H].
      * right. now left.
      * now left.
      * right. now right.
Qed.

Lemma spaced_cons (w : list string) (ws : list (list string)) :
  spaced (w :: ws)
  = w ++ match ws with [] => [] | _ => " "%string :: spaced ws end.
Proof. destruct ws; [now rewrite app_nil_r|reflexivity]. Qed.

(** The words found in a list of characters, put next to each other with
    one space between them, are again a list of characters. *)
Lemma words_from_characters (l cur : list string) :
  characters (rev cur ++ l) = true ->
  characters (spaced (Text.words_from cur l)) = true
  /\ Forall (fun w => characters w = true) (Text.words_from cur l).
Proof.
  revert cur; induction l as [|c t IH]; intros cur H.
  - rewrite app_nil_r in H. destruct cur as [|x cur'].
    + split; [reflexivity|constructor].
    + cbn [Text.words_from]. split; [exact H|].
      constructor; [exact H|constructor].
  - cbn [Text.words_from]. destruct (Text.is_space c) eqn:Ec.
    + pose proof (characters_app_r _ _ H) as Hct.
      apply characters_tail in Hct. destruct (IH [] Hct) as [IH1 IH2].
      destruct cur as [|x cur']; [now split|].
      split.
      * rewrite spaced_cons.
        destruct (Text.words_from [] t) as [|w ws] eqn:Ew.
        { rewrite app_nil_r. now apply characters_app_l in H. }
        apply characters_app; [now apply characters_before in H|].
        now apply characters_cons.
      * constructor; [now apply characters_app_l in H|exact IH2].
    + apply IH. cbn [rev]. now rewrite <- app_assoc.
Qed.

Lemma words_from_spaced (ws : list (list string)) :
  Forall (fun w => w <> [] /\ forallb not_space w = true) ws ->
  Text.words_from [] (spaced ws) = ws.
Proof.
  induction 1 as [|w t [Hne Hw] Ht IH]; [reflexivity|].
  rewrite spaced_cons, words_from_word by exact Hw. rewrite app_nil_r.
  pose proof (rev_not_nil w Hne) as Hrev.
  destruct t as [|w' t'].
  - cbn [Text.words_from].
    destruct (rev w) as [|x r] eqn:E; [congruence|].
    now rewrite <- E, rev_involutive.
  - cbn [Text.words_from].
    replace (Text.is_space " ") with true by reflexivity.
    destruct (rev w) as [|x r] eqn:E; [congruence|].
    rewrite <- E, rev_involutive. f_equal. exact IH.
Qed.

Lemma join_spaced (ws : list (list string)) :
  Text.join " " (map Text.cat ws) = Text.cat (spaced ws).
Proof.
  unfold Text.join. induction ws as [|w t IH]; [reflexivity|].
  rewrite spaced_cons, cat_app. destruct t as [|w' t'].
  - cbn [map String.concat Text.cat]. now rewrite append_empty.
  - change (String.concat " " (map Text.cat (w :: w' :: t')))
      with (Text.cat w ++ " " ++ String.concat " " (map Text.cat (w' :: t')))
           %string.
    rewrite IH. reflexivity.
Qed.

(** [Text.split] finds words. *)
Lemma split_words (s : string) : Forall is_word (Text.split s).
Proof.
  unfold Text.split. apply Forall_forall. intros x Hx.
  apply in_map_iff in Hx. destruct Hx as (w & <- & Hw).
  pose proof (words_from_runs (Text.chars s) [] eq_refl) as Hruns.
  rewrite Forall_forall in Hruns. destruct (Hruns w Hw) as [Hne Hns].
  destruct (words_from_characters (Text.chars s) [])
    as [_ Hch]; [apply characters_chars|].
  rewrite Forall_forall in Hch. specialize (Hch w Hw).
  split.
  - destruct w as [|c w']; [congruence|].
    assert (Hc : started c = true)
      by (eapply characters_started; [exact Hch|now left]).
    destruct c; [discriminate|]. discriminate.
  - now rewrite chars_cat.
Qed.

(** Joining the words of a text with single spaces and splitting the result
    gives the words back. *)
Lemma split_join_split (s : string) :
  Text.split (Text.join " " (Text.split s)) = Text.split s.
Proof.
  unfold Text.split. rewrite join_spaced.
  destruct (words_from_characters (Text.chars s) [])
    as [Hch _]; [apply characters_chars|].
  rewrite chars_cat by exact Hch.
  rewrite words_from_spaced; [reflexivity|].
  apply words_from_runs. reflexivity.
Qed.

Lemma chars_join_split (s : string) :
  Text.chars (Text.join " " (Text.split s))
  = spaced (Text.words_from [] (Text.chars s)).
Proof.
  unfold Text.split. rewrite join_spaced. apply chars_cat.
  now apply words_from_characters, characters_chars.
Qed.

Lemma spaced_In (ws : list (list string)) (c : string) :
  In c (spaced ws) -> c = " "%string \/ exists w, In w ws /\ In c w.
Proof.
  induction ws as [|w t IH]; [intros []|].
  rewrite spaced_cons. intros H. apply in_app_or in H.
  destruct H as [H|H].
  - right. exists w. split; [now left|exact H].
  - destruct t as [|w' t']; [destruct H|].
    destruct H as [<-|H]; [now left|].
    destruct (IH H) as [E|(w0 & Hw0 & Hc)]; [now left|].
    right. exists w0. split; [now right|exact Hc].
Qed.

Lemma join_words_empty (ws : list string) :
  Forall is_word ws -> (Text.join " " ws = EmptyString <-> ws = []).
Proof.
  intros H. split; [|intros ->; reflexivity].
  destruct H as [|x t [Hne _] _]; [reflexivity|].
  unfold Text.join. cbn [String.concat].
  destruct t; [intros E; contradiction|].
  destruct x; [contradiction|discriminate].
Qed.

Lemma split_nil (s : string) : Text.split s = [] <-> all_space s = true.
Proof.
  unfold Text.split, all_space.
  pose proof (words_from_nil (Text.chars s) []) as H. split.
  - intros E. apply map_eq_nil in E. now apply H.
  - intros E. destruct H as [_ H]. now rewrite H.
Qed.

End Words.

Lemma normalize_text_empty_iff (B : Backend) (t : string) :
  String.length (normalize_text B t) = 0%nat
  <-> all_space (Text.encode_ignore (nfkc B t)) = true.
Proof.
  transitivity (normalize_text B t = EmptyString).
  { destruct (normalize_text B t); simpl; split; intros H;
      try reflexivity; discriminate. }
  unfold normalize_text.
  rewrite (join_words_empty _ (split_words _)). apply split_nil.
Qed.

(** X17. [normalize_text] leaves the words of the text, as [str.split] finds
    them in its NFKC form without lone surrogates, with single spaces
    between them: each word is non-empty and free of white space (that of
    Unicode included), splitting the result gives the same words back,
    joining those gives the result back, the result holds no lone surrogate,
    and it is empty exactly when the text held nothing but white space. *)
Theorem normalize_text_words (B : Backend) (t : string) :
  let words := Text.split (Text.encode_ignore (nfkc B t)) in
  Forall is_word words
  /\ Text.split (normalize_text B t) = words
  /\ Text.join " " (Text.split (normalize_text B t)) = normalize_text B t
  /\ Text.encode_ignore (normalize_text B t) = normalize_text B t
  /\ (normalize_text B t = EmptyString
      <-> all_space (Text.encode_ignore (nfkc B t)) = true).
Proof.
  intros words.
  assert (Hsplit : Text.split (normalize_text B t) = words)
    by apply split_join_split.
  split; [apply split_words|]. split; [exact Hsplit|].
  split; [now rewrite Hsplit|]. split.
  - unfold Text.encode_ignore at 1.
    rewrite <- (cat_chars (normalize_text B t)) at 2. f_equal.
    apply forallb_filter_id. apply forallb_forall. intros c Hc.
    unfold normalize_text in Hc. rewrite chars_join_split in Hc.
    apply spaced_In in Hc. destruct Hc as [->|(w & Hw & Hc)]; [reflexivity|].
    destruct (words_from_In _ _ _ _ Hw Hc) as [[]|Hin].
    rewrite chars_encode_ignore in Hin. apply filter_In in Hin. apply Hin.
  - unfold normalize_text. fold words.
    rewrite (join_words_empty words (split_words _)). apply split_nil.
Qed.

(** White space of Unicode separates words, and a lone surrogate is
    dropped. *)
Example normalize_text_unicode :
  normalize_text Fake.two_reviews
    ("a" ++ no_break_space ++ line_separator ++ "b" ++ lone_surrogate
         ++ "c" ++ ideographic_space)
  = "a bc"%string.
Proof. reflexivity. Qed.

(** X18. A query is rejected exactly when its NFKC form, lone surrogates
    left out, holds nothing but white space: then, and only then,
    [search_places] raises [InvalidQuery]. *)
Theorem invalid_query_iff_blank (B : Backend) (query : string)
    (top_k min_reviews : option Z) (aggregation : option string)
    (s : Session) :
  fst (search_places B query top_k min_reviews aggregation s)
    = Raise InvalidQuery
  <-> all_space (Text.encode_ignore (nfkc B query)) = true.
Proof.
  rewrite <- normalize_text_empty_iff. split.
  - intros Hraise.
    destruct (Nat.eq_dec (String.length (normalize_text B query)) 0)
      as [E|NE]; [exact E|].
    destruct (search_reviews_accepted B query 300 s NE)
      as (rel & extra & Hrun & _).
    rewrite (search_places_after_reviews B _ _ _ _ _ _ _ Hrun) in Hraise.
    destruct rel as [|r0 rel']; [discriminate|]. cbv zeta in Hraise.
    destruct (min_reviews_filter _ _) as [|p ps]; [discriminate|].
    unfold add_final_score in Hraise.
    destruct (_ =? "mean"); [discriminate|].
    destruct (_ =? "max"); [discriminate|].
    destruct (_ =? "weighted"); discriminate.
  - intros E. now rewrite search_places_empty_query.
Qed.

(** A query of one line separator is blank. *)
Example line_separator_query_is_rejected :
  fst (search_places Fake.two_reviews line_separator None None None
                     init_session)
  = Raise InvalidQuery.
Proof. reflexivity. Qed.

(** ** [sentiment_to_weight] *)

Lemma lower_ascii_idempotent (c : ascii) :
  Text.lower_ascii (Text.lower_ascii c) = Text.lower_ascii c.
Proof. destruct c as [[] [] [] [] [] [] [] []]; reflexivity. Qed.

Lemma lower_idempotent (s : string) :
  Text.lower (Text.lower s) = Text.lower s.
Proof.
  induction s as [|c s IH]; simpl; [reflexivity|].
  now rewrite lower_ascii_idempotent, IH.
Qed.

(** X19. [sentiment_to_weight] does not look at letter case, answers 1.2
    for positive, 0.8 for negative and 1.0 for every other label, known or
    not; so a weight is never zero or negative. *)
Theorem sentiment_to_weight_total (label : string) :
  sentiment_to_weight (Text.lower label) = sentiment_to_weight label
  /\ (Text.lower label = "positive" -> sentiment_to_weight label = 1.2%Q)
  /\ (Text.lower label = "negative" -> sentiment_to_weight label = 0.8%Q)
  /\ (Text.lower label <> "positive" -> Text.lower label <> "negative" ->
      sentiment_to_weight label = 1.0%Q)
  /\ (0.8 <= sentiment_to_weight label <= 1.2)%Q.
Proof.
  split; [unfold sentiment_to_weight; now rewrite lower_idempotent|].
  split; [intros E; unfold sentiment_to_weight; now rewrite E|].
  split; [intros E; unfold sentiment_to_weight; now rewrite E|].
  split.
  - intros Hp Hn. unfold sentiment_to_weight.
    apply String.eqb_neq in Hp, Hn. rewrite Hp, Hn.
    destruct (_ =? "neutral"); reflexivity.
  - destruct (sentiment_to_weight_cases label) as [E|[E|E]]; rewrite E;
      split; vm_compute; discriminate.
Qed.

(** ** The search request of the page *)

Section AppFacts.
Context (B : Backend).

Lemma top_reviews_length (s : Session) (id k : Z) :
  (List.length (top_reviews s id k) <= Z.to_nat k)%nat.
Proof.
  unfold top_reviews.
  destruct (_last_relevant_reviews s) as [[|r0 last]|];
    [apply Nat.le_0_l| |apply Nat.le_0_l].
  destruct (group_rows sr_place_firm_id id (r0 :: last));
    [apply Nat.le_0_l|].
  rewrite nlargest_length. lia.
Qed.

Lemma highlights_of_length (l : list ScoredReview) :
  (List.length (highlights_of B l) <= List.length l)%nat.
Proof.
  rewrite highlights_of_filter, length_map. apply filter_length_le.
Qed.

(** The cards of a frame: the reads leave the session alone, so every card
    is computed on the session the search ended in. *)
Lemma result_cards_run (rows : list PlaceResult) (s : Session) :
  result_cards B rows s =
    (Ok (map (fun row =>
                (row, highlights_of B
                        (top_reviews s (ps_place_firm_id (pr_scores row)) 3)))
             rows), s).
Proof.
  induction rows as [|row rest IH]; [reflexivity|].
  cbn [result_cards]. unfold bind at 1.
  unfold get_place_highlights, bind, get_session, ret. cbn [map].
  fold (@bind (list (PlaceResult * list string))).
  unfold bind, ret in IH |- *. now rewrite IH.
Qed.

Lemma add_final_score_known (aggregation query_sentiment : string)
                            (ps : list PlaceScores) :
  In aggregation ["weighted"; "mean"; "max"] ->
  exists scored,
    add_final_score aggregation query_sentiment ps = Ok scored.
Proof.
  intros [<-|[<-|[<-|[]]]]; unfold add_final_score;
    cbn [String.eqb Ascii.eqb Bool.eqb]; eexists; reflexivity.
Qed.

End AppFacts.

(** X20. The search request of the page, for any position of its widgets
    (1 to 20 results, 1 to 10 reviews, one of the three strategies): the
    widget values reach [search_places] as they are; the request never ends
    in [InvalidAggregation]; it raises [InvalidQuery] exactly when the query
    is not the empty string but its NFKC form, lone surrogates left out,
    holds nothing but white space, which the page's own test [not query]
    lets through; and when it shows results it shows
    the frame [search_places] returned, between 1 and [top_k] cards, each
    with at most 3 highlights and at least [min_reviews] reviews. *)
Theorem app_search_outcomes (B : Backend) (search_button : bool)
    (query : string) (top_k min_reviews : Z) (aggregation : string)
    (s : Session) :
  (1 <= top_k <= 20)%Z -> (1 <= min_reviews <= 10)%Z ->
  In aggregation ["weighted"; "mean"; "max"] ->
  let out :=
    fst (app_search B search_button query top_k min_reviews aggregation s) in
  (out = Raise InvalidQuery <->
     query <> EmptyString
     /\ all_space (Text.encode_ignore (nfkc B query)) = true)
  /\ (forall a, out <> Raise (InvalidAggregation a))
  /\ (forall cards,
        out = Ok (Results cards) ->
        fst (search_places B query (Some top_k) (Some min_reviews)
                           (Some aggregation) s) = Ok (map fst cards)
        /\ (1 <= List.length cards <= Z.to_nat top_k)%nat
        /\ Forall (fun card =>
                     (List.length (snd card) <= 3)%nat
                     /\ (min_reviews
                         <= Z.of_nat (review_count (pr_scores (fst card))))%Z)
                  cards).
Proof.
  intros Hk Hm Hagg out.
  destruct (Nat.eqb_spec (String.length query) 0) as [E0|NE0].
  { assert (Hq : query = EmptyString)
      by (destruct query; [reflexivity|discriminate]).
    assert (Hout : out = Ok AskForQuery \/ out = Ok Idle).
    { unfold out, app_search. rewrite Hq.
      destruct search_button; auto. }
    clearbody out. split; [|split].
    - split; [destruct Hout as [E|E]; rewrite E; discriminate|].
      intros [H _]. congruence.
    - intros a. destruct Hout as [E|E]; rewrite E; discriminate.
    - intros cards. destruct Hout as [E|E]; rewrite E; discriminate. }
  assert (Hne : query <> EmptyString) by (intros ->; now apply NE0).
  assert (Hout0 :
    out = fst (bind (search_places B query (Some top_k) (Some min_reviews)
                                   (Some aggregation))
                    (fun results =>
                       match results with
                       | [] => ret NothingFound
                       | _ => bind (result_cards B results)
                                   (fun cards => ret (Results cards))
                       end) s)).
  { unfold out, app_search.
    destruct (Nat.eqb_spec (String.length query) 0); [contradiction|].
    now rewrite orb_true_r. }
  clearbody out. unfold bind at 1 in Hout0.
  assert (Ek : or_default_Z (Some top_k) config.DEFAULT_TOP_K = top_k).
  { unfold or_default_Z. destruct (Z.eqb_spec top_k 0); [lia|reflexivity]. }
  assert (Em : or_default_Z (Some min_reviews) config.DEFAULT_MIN_REVIEWS
               = min_reviews).
  { unfold or_default_Z. destruct (Z.eqb_spec min_reviews 0);
      [lia|reflexivity]. }
  destruct (search_places B query (Some top_k) (Some min_reviews)
              (Some aggregation) s) as [[rows|e] s1] eqn:Hrun.
  - assert (Hacc : String.length (normalize_text B query) <> 0%nat).
    { intros E. rewrite (search_places_empty_query B _ _ _ _ _ E) in Hrun.
      discriminate. }
    assert (Hout : out = match rows with
                         | [] => Ok NothingFound
                         | _ => Ok (Results
                                  (map (fun row =>
                                     (row, highlights_of B
                                        (top_reviews s1
                                           (ps_place_firm_id (pr_scores row))
                                           3))) rows))
                         end).
    { rewrite Hout0. destruct rows as [|r0 rows']; [reflexivity|].
      unfold bind. rewrite result_cards_run. reflexivity. }
    split; [|split].
    + rewrite Hout. split; [destruct rows; discriminate|].
      intros [_ Hblank]. apply normalize_text_empty_iff in Hblank.
      contradiction.
    + intros a. rewrite Hout. destruct rows; discriminate.
    + intros cards Hcards. rewrite Hout in Hcards.
      destruct rows as [|r0 rows'] eqn:Erows; [discriminate|].
      rewrite <- Erows in *. inversion Hcards as [Ec]. clear Hcards.
      cbn [fst]. rewrite map_map. cbn [fst]. rewrite map_id.
      split; [reflexivity|]. rewrite length_map. split.
      * split; [rewrite Erows; simpl; lia|].
        destruct (search_places_rows B _ _ _ _ _ _ _ Hrun)
          as [E|[scored E]]; [rewrite E; simpl; lia|].
        rewrite E, Ek. apply join_and_clean_length. lia.
      * apply Forall_forall. intros card Hcard.
        apply in_map_iff in Hcard. destruct Hcard as (row & <- & Hrow).
        cbn [fst snd]. split.
        -- eapply Nat.le_trans; [apply highlights_of_length|].
           apply (top_reviews_length s1 _ 3).
        -- destruct (returned_place_inv B _ _ _ _ _ _ _ _ Hrun Hrow)
             as (_ & _ & _ & _ & _ & _ & Hmin).
           now rewrite Em in Hmin.
  - assert (Hout : out = Raise e) by exact Hout0.
    assert (He : e = InvalidQuery
                 /\ String.length (normalize_text B query) = 0%nat).
    { destruct (Nat.eq_dec (String.length (normalize_text B query)) 0)
        as [E|NE].
      - rewrite (search_places_empty_query B _ _ _ _ _ E) in Hrun.
        inversion Hrun. auto.
      - exfalso.
        destruct (search_reviews_accepted B query 300 s NE)
          as (rel & extra & Hrev & _).
        rewrite (search_places_after_reviews B _ _ _ _ _ _ _ Hrev) in Hrun.
        destruct rel as [|r0 rel']; [discriminate|]. cbv zeta in Hrun.
        destruct (min_reviews_filter _ _) as [|p ps]; [discriminate|].
        assert (Ea : or_default_string (Some aggregation)
                       config.DEFAULT_AGGREGATION = aggregation)
          by (destruct Hagg as [<-|[<-|[<-|[]]]]; reflexivity).
        rewrite Ea in Hrun.
        destruct (add_final_score_known aggregation
                    (or_default_string (_last_query_sentiment
                       (mkSession (_last_relevant_reviews s)
                          (Some (query_label B query))
                          (calls s ++ query_calls B query 300 ++ extra)))
                       "neutral") (p :: ps) Hagg) as [scored Hs].
        rewrite Hs in Hrun. discriminate. }
    destruct He as [-> Hblank]. rewrite Hout.
    split; [|split].
    + split; [intros _|reflexivity].
      split; [exact Hne|]. now apply normalize_text_empty_iff.
    + intros a. discriminate.
    + intros cards. discriminate.
Qed.

Lemma app_search_outcomes_witness :
  fst (app_search Fake.two_reviews true (line_separator ++ " ") 10 3
                  "weighted" init_session)
    = Raise InvalidQuery
  /\ exists cards,
       fst (app_search Fake.two_reviews false "- awful service" 10 1
                       "weighted" init_session) = Ok (Results cards)
       /\ (1 <= List.length cards <= 10)%nat.
Proof.
  split.
  - apply (proj1 (app_search_outcomes Fake.two_reviews true
                    (line_separator ++ " ") 10 3
                    "weighted" init_session ltac:(lia) ltac:(lia)
                    (or_introl eq_refl))).
    split; [discriminate|reflexivity].
  - eexists. split; [lazy -[weighted_score]; reflexivity|].
    apply (proj2 (proj2 (app_search_outcomes Fake.two_reviews false
                           "- awful service" 10 1 "weighted" init_session
                           ltac:(lia) ltac:(lia) (or_introl eq_refl)))).
    lazy -[weighted_score]. reflexivity.
Defined.

(** ** The text column of the reviews file *)

Lemma has_column_In (c : string) (columns : list (string * prepare.dtype)) :
  prepare.has_column c columns = true <-> In c (map fst columns).
Proof.
  unfold prepare.has_column. rewrite existsb_exists, in_map_iff.
  split; intros (col & H1 & H2).
  - exists col. split; [now apply String.eqb_eq|exact H1].
  - exists col. split; [exact H2|now apply String.eqb_eq].
Qed.

(** X21. The text column [load_data] settles on.  The answer is a column of
    the reviews frame, except in the second branch, which answers
    [review_text] when the configured name is missing and a column [text]
    exists; the call fails only when the configured name and [text] are both
    missing and no column has an object type.  With the configured name of
    [config.py], which is [text], the second branch is never taken and the
    answer is always a column of the frame. *)
Theorem text_column_choice (configured : string)
    (columns : list (string * prepare.dtype)) :
  match prepare.text_column configured columns with
  | Some c =>
      In c (map fst columns)
      \/ (c = "review_text" /\ ~ In configured (map fst columns)
          /\ In "text" (map fst columns))
  | None =>
      ~ In configured (map fst columns) /\ ~ In "text" (map fst columns)
      /\ (forall col, In col columns -> snd col = prepare.other_dtype)
  end
  /\ (forall c, prepare.text_column prepare.TEXT_COLUMN columns = Some c ->
                In c (map fst columns)).
Proof.
  assert (Hfirst : forall cols col rest,
            filter prepare.is_object cols = col :: rest ->
            In (fst col) (map fst cols)).
  { intros cols col rest E. apply in_map.
    assert (H : In col (filter prepare.is_object cols))
      by (rewrite E; now left).
    now apply filter_In in H. }
  split.
  - unfold prepare.text_column.
    destruct (prepare.has_column configured columns) eqn:Hc.
    { left. now apply has_column_In. }
    destruct (prepare.has_column "text" columns) eqn:Ht.
    { right. split; [reflexivity|]. split.
      - intros H. apply has_column_In in H. congruence.
      - now apply has_column_In. }
    destruct (filter prepare.is_object columns) as [|col rest] eqn:Ef.
    + split; [|split].
      * intros H. apply has_column_In in H. congruence.
      * intros H. apply has_column_In in H. congruence.
      * intros col Hcol. destruct (snd col) eqn:Ed; [|reflexivity].
        assert (H : In col (filter prepare.is_object columns)).
        { apply filter_In. split; [exact Hcol|].
          unfold prepare.is_object. now rewrite Ed. }
        rewrite Ef in H. destruct H.
    + left. eapply Hfirst, Ef.
  - intros c. unfold prepare.text_column, prepare.TEXT_COLUMN.
    destruct (prepare.has_column "text" columns) eqn:Ht.
    { intros E. inversion E; subst. now apply has_column_In. }
    destruct (filter prepare.is_object columns) as [|col rest] eqn:Ef;
      [discriminate|].
    intros E. inversion E; subst. eapply Hfirst, Ef.
Qed.

(** With another configured name the answer can be a column the frame does
    not have. *)
Example text_column_missing :
  prepare.text_column "body" [("text", prepare.object_dtype)]
    = Some "review_text".
Proof. reflexivity. Qed.

(** ** External calls of a search *)

Lemma with_place_length (rows : list (Review * Q)) :
  (List.length (with_place rows) <= List.length rows)%nat.
Proof.
  unfold with_place. induction rows as [|r t IH]; [apply Nat.le_refl|].
  cbn [flat_map]. rewrite length_app. cbn [List.length].
  destruct (place_firm_id (fst r)); cbn [List.length]; lia.
Qed.

Lemma valid_rows_length (B : Backend) (hits : list (Z * Q)) :
  (List.length (valid_rows B hits) <= List.length hits)%nat.
Proof.
  unfold valid_rows. induction hits as [|h t IH]; [apply Nat.le_refl|].
  cbn [filter]. destruct (fst h <? Z.of_nat (List.length (reviews_df B)))%Z.
  - cbn [flat_map]. rewrite length_app. cbn [List.length].
    destruct (iloc B (fst h)); cbn [List.length]; lia.
  - cbn [List.length]. lia.
Qed.

(** The calls [search_reviews] adds to the log. *)
Lemma search_reviews_calls (B : Backend) (query : string) (top_k : Z)
                           (s : Session) :
  String.length (normalize_text B query) <> 0%nat ->
  let rows := with_place (valid_rows B (query_hits B query top_k)) in
  calls (snd (search_reviews B query top_k s))
  = calls s ++ query_calls B query top_k
    ++ match rows with
       | [] => []
       | _ => [SentimentCall
                 (map (fun row => model_text (text (fst (fst row)))) rows)]
       end.
Proof.
  intros H rows. unfold rows, search_reviews.
  destruct (Nat.eqb_spec (String.length (normalize_text B query)) 0);
    [contradiction|].
  unfold _get_query_sentiment, set_last_query_sentiment, log, bind, ret.
  cbn [snd]. fold (query_label B query). fold (query_hits B query top_k).
  unfold query_calls.
  destruct (valid_rows B (query_hits B query top_k)) as [|v vs].
  { cbn [snd calls with_place flat_map]. now rewrite <- !app_assoc. }
  destruct (with_place (v :: vs)) as [|w ws].
  { cbn [snd calls]. now rewrite <- !app_assoc. }
  destruct (threshold_filter _ _) as [|t ts]; cbn [snd calls];
    now rewrite <- !app_assoc.
Qed.

(** X22. An accepted query costs [search_places] one call of the sentiment
    model on the first 512 characters of the normalised query, one call of
    the encoder, one index search for [min(1500, ntotal)] candidates
    whatever [top_k] is, and then at most one batch call of the sentiment
    model, on as many texts as there are usable candidates and none longer
    than 512 characters (characters, not bytes).  Nothing else leaves the
    core. *)
Theorem search_places_calls (B : Backend) (query : string)
    (top_k min_reviews : option Z) (aggregation : option string)
    (s : Session) :
  String.length (normalize_text B query) <> 0%nat ->
  exists batch,
    calls (snd (search_places B query top_k min_reviews aggregation s))
    = calls s
      ++ [ SentimentCall [Text.prefix 512 (normalize_text B query)];
           EncodeCall (normalize_text B query);
           IndexSearchCall (Z.min 1500 (index_ntotal B)) ]
      ++ batch
    /\ Text.chars (Text.prefix 512 (normalize_text B query))
       = firstn 512 (Text.chars (normalize_text B query))
    /\ (Text.length (Text.prefix 512 (normalize_text B query))
        <= 512)%nat
    /\ (batch = []
        \/ exists texts,
             batch = [SentimentCall texts]
             /\ texts <> []
             /\ (List.length texts
                 <= List.length (query_hits B query 300))%nat
             /\ Forall (fun t => Text.length t <= 512)%nat texts).
Proof.
  intros NE.
  pose proof (search_reviews_calls B query 300 s NE) as Hcalls.
  cbv zeta in Hcalls.
  assert (Hsame : calls (snd (search_places B query top_k min_reviews
                                            aggregation s))
                  = calls (snd (search_reviews B query 300 s))).
  { destruct (search_reviews_accepted B query 300 s NE)
      as (rel & extra & Hrun & _).
    rewrite (search_places_after_reviews B _ _ _ _ _ _ _ Hrun), Hrun.
    destruct rel as [|r0 rel']; [reflexivity|]. cbv zeta.
    destruct (min_reviews_filter _ _) as [|p ps]; [reflexivity|].
    destruct (add_final_score _ _ _); reflexivity. }
  rewrite Hsame, Hcalls. unfold query_calls.
  change (300 * 5)%Z with 1500%Z.
  eexists. split; [reflexivity|].
  split; [apply chars_prefix|]. split; [apply prefix_length|].
  destruct (with_place (valid_rows B (query_hits B query 300)))
    as [|w ws] eqn:Erows; [now left|right].
  eexists. split; [reflexivity|]. rewrite <- Erows.
  split; [rewrite Erows; discriminate|]. split.
  - rewrite length_map.
    eapply Nat.le_trans; [apply with_place_length|apply valid_rows_length].
  - apply Forall_forall. intros t Ht. apply in_map_iff in Ht.
    destruct Ht as (row & <- & _). apply prefix_length.
Qed.

Lemma search_places_calls_witness :
  exists batch,
    calls (snd (search_places Fake.two_reviews "- awful service" None None
                              None init_session))
    = [ SentimentCall ["- awful service"];
        EncodeCall "- awful service";
        IndexSearchCall 2 ] ++ batch
    /\ (List.length batch <= 1)%nat.
Proof.
  destruct (search_places_calls Fake.two_reviews "- awful service" None
              None None init_session ltac:(vm_compute; discriminate))
    as (batch & Hcalls & _ & _ & Hbatch).
  exists batch. split; [exact Hcalls|].
  destruct Hbatch as [->|(texts & -> & _)]; simpl; lia.
Defined.

(** ** Monotonicity of the weighted score *)

Lemma ln_1_plus_monotone (n m : nat) :
  (n <= m)%nat -> (ln (1 + INR n) <= ln (1 + INR m))%R.
Proof.
  intros H. apply le_INR in H. pose proof (pos_INR n) as Hn.
  destruct (Req_dec (INR n) (INR m)) as [E|NE].
  - rewrite E. apply Rle_refl.
  - apply Rlt_le, ln_increasing; lra.
Qed.

(** X23. The weighted [final_score] of a place does not decrease when its
    [avg_score] grows, and, for a non-negative [avg_score], does not
    decrease when its [review_count] grows, the sentiment counts being the
    same. *)
Theorem weighted_score_monotone (query_sentiment : string) (id : Z)
    (avg avg' mx tot : Q) (n n' pos neg neu : nat) :
  ((avg <= avg')%Q ->
   (weighted_score query_sentiment
      (mkPlaceScores id avg mx n tot pos neg neu)
    <= weighted_score query_sentiment
         (mkPlaceScores id avg' mx n tot pos neg neu))%R)
  /\ ((0 <= avg)%Q -> (n <= n')%nat ->
      (weighted_score query_sentiment
         (mkPlaceScores id avg mx n tot pos neg neu)
       <= weighted_score query_sentiment
            (mkPlaceScores id avg mx n' tot pos neg neu))%R).
Proof.
  unfold weighted_score.
  cbn [avg_score review_count].
  assert (Hratio : forall a c,
            sentiment_ratio query_sentiment
              (mkPlaceScores id a mx c tot pos neg neu)
            = sentiment_ratio query_sentiment
                (mkPlaceScores id avg mx n tot pos neg neu))
    by reflexivity.
  rewrite (Hratio avg' n), (Hratio avg n').
  set (root := sqrt (sentiment_ratio query_sentiment
                       (mkPlaceScores id avg mx n tot pos neg neu))).
  assert (Hroot : (0 <= root)%R) by apply sqrt_pos.
  split.
  - intros H. apply Qle_Rle in H.
    apply Rmult_le_compat_r; [exact Hroot|].
    apply Rmult_le_compat_r; [apply ln_1_plus_nonneg|exact H].
  - intros Havg Hn. apply Q2R_nonneg in Havg.
    apply Rmult_le_compat_r; [exact Hroot|].
    apply Rmult_le_compat_l; [exact Havg|].
    now apply ln_1_plus_monotone.
Qed.
